(** * The synthetic dataset generator of [scripts/fill_db.js]

    A shallow embedding of the seeding script: the four batch stages
    [insert_users], [insert_products], [insert_orders], [insert_orderitems],
    the helper [randomDate] and the driver [run], over an explicit model of
    what the script talks to (the connection pool of [src/db.js], the
    JavaScript random source and the wall clock).

    The script is a computation in a state and error monad [M].  Its state
    [World] holds the tables of the backend and a log of what was asked of
    the pool; what the script cannot decide (the draws, the clock, which
    statements the backend rejects) is read from an [Env].  Loops take an
    iteration budget, so that a loop that does not end shows as
    [OutOfFuel].

    The first half of the file holds the definitions, the second the
    lemmas: a loop rule, the facts about binary64 rounding the ranges rest
    on, the outcome of one stage ([batches_spec]) and of the whole run
    ([run_spec]), then the properties of the specification, and after
    them further properties of the code: which draw and which clock reading
    each row is made of, how the stages depend on one another, what a
    failure leaves behind, and how the text of a statement is quoted. *)

From Stdlib Require Import ZArith String Ascii Bool Lia Arith List Sorted.
From Stdlib Require Import DecimalString.
From Stdlib Require DecimalZ DecimalPos.
Import ListNotations.
Open Scope Z_scope.

(** ** JavaScript numbers

    Every finite binary64 value is an integer multiple of [2^-1074].  A
    JavaScript number that is not known to be an integer (a draw of
    [Math.random()], what is computed from one) is kept as the integer [z]
    standing for [z * 2^-1074]; a number that is an integer ([i], [j], the
    totals, epoch milliseconds) is kept as that integer.  Either way the
    result of an arithmetic operation is the exact result rounded to 53
    significant bits.  Nothing the script computes comes near [2^1024], so
    no operation overflows, and in units of [2^-1074] everything below
    [2^53] is a number, which covers the subnormal range. *)

Module Js.

Definition emin : Z := 1074.

(** The number [1.0] in units of [2^-1074]. *)
Definition one : Z := 2 ^ emin.

(** [Number.MAX_SAFE_INTEGER + 1]: below it, integer arithmetic is exact. *)
Definition MAX_SAFE : Z := 2 ^ 53.

(** Rounding of a non-negative exact value to 53 significant bits, to nearest,
    ties to even: what IEEE 754 does to the exact result of [*] and [+]. *)
Definition round53_pos (z : Z) : Z :=
  if z <? 2 ^ 53 then z
  else
    let k := Z.log2 z - 52 in
    let q := z / 2 ^ k in
    let r := z mod 2 ^ k in
    let half := 2 ^ (k - 1) in
    if r <? half then q * 2 ^ k
    else if half <? r then (q + 1) * 2 ^ k
    else if Z.even q then q * 2 ^ k
    else (q + 1) * 2 ^ k.

Definition round53 (z : Z) : Z := Z.sgn z * round53_pos (Z.abs z).

(** [a + b], [a - b] and [a * b] for integers [a] and [b]. *)
Definition add (a b : Z) : Z := round53 (a + b).

Definition sub (a b : Z) : Z := round53 (a - b).

Definition mul (a b : Z) : Z := round53 (a * b).

(** An integer in units of [2^-1074]. *)
Definition of_int (n : Z) : Z := n * one.

(** [x * n] for a number [x] and an integer [n]. *)
Definition mul_int (x n : Z) : Z := round53 (x * n).

(** [n + x] for an integer [n] and a number [x]. *)
Definition int_add (n x : Z) : Z := round53 (of_int n + x).

(** [Math.floor]. *)
Definition floor (x : Z) : Z := x / one.

(** The time values a [Date] can hold: [|t| <= 8.64e15] milliseconds. *)
Definition MAX_TIME : Z := 8640000000000000.

(** [new Date(x)]: the time value is clipped, [None] is the invalid date;
    a valid value is truncated towards zero to whole milliseconds. *)
Definition new_Date (x : Z) : option Z :=
  if (Z.abs x) >? MAX_TIME * one then None else Some (Z.quot x one).

(** [x.toFixed(2)] for [0 <= x < 1e21]: the integer [n] for which
    [n / 100 - x] is closest to zero, the larger one of two.  The string
    printed is [n] with a point before its last two digits. *)
Definition toFixed2 (x : Z) : Z := (200 * x + one) / (2 * one).

(** An integer in a template literal: its decimal digits. *)
Definition to_string (n : Z) : string := NilZero.string_of_int (Z.to_int n).

Definition is_double (x : Z) : Prop := round53 x = x.

(** What [Math.random()] may return: a number in [[0, 1)]. *)
Definition unit_interval (x : Z) : Prop := 0 <= x < one /\ is_double x.

End Js.

(** ** Rows, statements and the backend *)

Inductive table := users | products | orders | orderitems.

Definition table_eqb (a b : table) : bool :=
  match a, b with
  | users, users | products, products
  | orders, orders | orderitems, orderitems => true
  | _, _ => false
  end.

(** A timestamp column is filled either by the SQL expression [NOW()], which
    the backend evaluates, or by a literal the script computed (epoch
    milliseconds, printed by [toISOString]). *)
Inductive sql_time := SqlNow | SqlTimestamp (ms : Z).

(** One parenthesised tuple of a [VALUES] list.  Prices are kept as the
    integer number of hundredths that [toFixed(2)] prints. *)
Inductive row :=
| UserRow (email : string) (created_at : sql_time)
| ProductRow (name : string) (price : Z)
| OrderRow (user_id : Z) (created_at : sql_time) (status : string)
| ItemRow (order_id product_id quantity price : Z).

(** [INSERT INTO <into> (...) VALUES <values joined by ','>]. *)
Record stmt := Insert { into : table; values : list row }.

(** The tables of the README schema.  No column but the serial [id] is
    constrained, so a multi-row [INSERT] appends its rows. *)
Definition Db := table -> list row.

Definition empty_db : Db := fun _ => [].

Definition db_exec (q : stmt) (d : Db) : Db :=
  fun t => if table_eqb t (into q) then d t ++ values q else d t.

(** ** SQL text *)

Module Sql.

Definition pad (w : nat) (n : Z) : string :=
  let s := Js.to_string n in
  append (string_of_list_ascii (repeat "0"%char (w - String.length s))) s.

(** Days since 1970-01-01 to (year, month, day) of the proleptic Gregorian
    calendar. *)
Definition civil_of_days (d : Z) : Z * Z * Z :=
  let z := d + 719468 in
  let era := z / 146097 in
  let doe := z - era * 146097 in
  let yoe := (doe - doe / 1460 + doe / 36524 - doe / 146096) / 365 in
  let doy := doe - (365 * yoe + yoe / 4 - yoe / 100) in
  let mp := (5 * doy + 2) / 153 in
  let day := doy - (153 * mp + 2) / 5 + 1 in
  let month := if mp <? 10 then mp + 3 else mp - 9 in
  let year := yoe + era * 400 + (if month <=? 2 then 1 else 0) in
  (year, month, day).

(** [Date.prototype.toISOString] of a valid time value. *)
Definition toISOString (t : Z) : string :=
  let '(y, m, d) := civil_of_days (t / 86400000) in
  let ms := t mod 86400000 in
  let year :=
    if (0 <=? y) && (y <=? 9999) then pad 4 y
    else append (if y <? 0 then "-" else "+") (pad 6 (Z.abs y)) in
  (year ++ "-" ++ pad 2 m ++ "-" ++ pad 2 d ++ "T" ++
   pad 2 (ms / 3600000) ++ ":" ++ pad 2 (ms / 60000 mod 60) ++ ":" ++
   pad 2 (ms / 1000 mod 60) ++ "." ++ pad 3 (ms mod 1000) ++ "Z")%string.

(** The string [toFixed(2)] returns, from its number of hundredths. *)
Definition fixed2 (n : Z) : string :=
  (Js.to_string (n / 100) ++ "." ++ pad 2 (n mod 100))%string.

Definition time (t : sql_time) : string :=
  match t with
  | SqlNow => "NOW()"
  | SqlTimestamp ms => ("'" ++ toISOString ms ++ "'")%string
  end.

Definition tuple (r : row) : string :=
  match r with
  | UserRow email created_at =>
      "('" ++ email ++ "', " ++ time created_at ++ ")"
  | ProductRow name price =>
      "('" ++ name ++ "', " ++ fixed2 price ++ ")"
  | OrderRow user_id created_at status =>
      "(" ++ Js.to_string user_id ++ ", " ++ time created_at ++ ", '" ++
      status ++ "')"
  | ItemRow order_id product_id quantity price =>
      "(" ++ Js.to_string order_id ++ ", " ++ Js.to_string product_id ++
      ", " ++ Js.to_string quantity ++ ", " ++ fixed2 price ++ ")"
  end%string.

Definition head (t : table) : string :=
  match t with
  | users => "INSERT INTO users (email, created_at) VALUES "
  | products => "INSERT INTO products (name, price) VALUES "
  | orders => "INSERT INTO orders (user_id, created_at, status) VALUES "
  | orderitems =>
      "INSERT INTO orderitems (order_id, product_id, quantity, price) VALUES "
  end%string.

Definition text (q : stmt) : string :=
  append (head (into q)) (String.concat "," (map tuple (values q))).

End Sql.

(** ** The world the script runs in *)

(** What the script observes but does not decide: the values [Math.random()]
    returns, in call order; the readings of [Date.now()], in call order; which
    submitted statements the backend rejects, by submission number; and the
    time value of local midnight, 1 January 2023. *)
Record Env := {
  random : nat -> Z;
  clock : nat -> Z;
  rejects : nat -> bool;
  start_2023 : Z
}.

Inductive event :=
| Submitted (q : stmt)
| Settled (q : stmt) (ok : bool)
| PoolEnded.

Record World := {
  db : Db;
  log : list event;
  draws : nat;
  ticks : nat;
  sent : nat
}.

Definition fresh (d : Db) : World :=
  {| db := d; log := []; draws := 0; ticks := 0; sent := 0 |}.

Inductive error := QueryError | RangeError.

(** How a computation ends: a value, an exception, or a loop that was still
    running when the iteration budget ran out. *)
Inductive result (A : Type) :=
| Ok (a : A)
| Threw (e : error)
| OutOfFuel.
Arguments Ok {A} a.
Arguments Threw {A} e.
Arguments OutOfFuel {A}.

Definition M (A : Type) : Type := Env -> World -> result A * World.

Definition ret {A} (a : A) : M A := fun _ w => (Ok a, w).

Definition bind {A B} (m : M A) (f : A -> M B) : M B :=
  fun e w =>
    match m e w with
    | (Ok a, w') => f a e w'
    | (Threw x, w') => (Threw x, w')
    | (OutOfFuel, w') => (OutOfFuel, w')
    end.

Definition throw {A} (x : error) : M A := fun _ w => (Threw x, w).

Declare Scope js_scope.
Delimit Scope js_scope with js.
Notation "x <- m ;; k" := (bind m (fun x => k))
  (at level 61, m at next level, right associativity) : js_scope.
Notation "m ;; k" := (bind m (fun _ => k))
  (at level 61, right associativity) : js_scope.
Open Scope js_scope.

(** [for (let i = init; i < bound; i += step) s = body(i, s)], the test
    first; [fuel] bounds the number of iterations. *)
Fixpoint for_loop {S} (fuel : nat) (i bound step : Z)
    (body : Z -> S -> M S) (s : S) : M S :=
  if i <? bound then
    match fuel with
    | O => fun _ w => (OutOfFuel, w)
    | Datatypes.S fuel' =>
        s' <- body i s ;;
        for_loop fuel' (Js.add i step) bound step body s'
    end
  else ret s.

Definition Math_random : M Z := fun e w =>
  (Ok (random e (draws w)),
   {| db := db w; log := log w; draws := S (draws w); ticks := ticks w;
      sent := sent w |}).

Definition Date_now : M Z := fun e w =>
  (Ok (clock e (ticks w)),
   {| db := db w; log := log w; draws := draws w; ticks := S (ticks w);
      sent := sent w |}).

(** [new Date(2023, 0, 1).getTime()]. *)
Definition Date_2023 : M Z := fun e w => (Ok (start_2023 e), w).

(** [d.toISOString()] throws a [RangeError] on the invalid date; on a valid
    one the literal is the time value (see [Sql.toISOString]). *)
Definition toISOString (d : option Z) : M sql_time :=
  match d with
  | Some t => ret (SqlTimestamp t)
  | None => throw RangeError
  end.

Module pool.

(** [await pool.query(q)]: the statement is submitted, the script waits, the
    backend settles it; a rejection is thrown at the [await]. *)
Definition query (q : stmt) : M unit := fun e w =>
  let ok := negb (rejects e (sent w)) in
  let w' :=
    {| db := if ok then db_exec q (db w) else db w;
       log := log w ++ [Submitted q; Settled q ok];
       draws := draws w; ticks := ticks w; sent := S (sent w) |} in
  (if ok then Ok tt else Threw QueryError, w').

(** [await pool.end()]. *)
Definition end_ : M unit := fun _ w =>
  (Ok tt,
   {| db := db w; log := log w ++ [PoolEnded]; draws := draws w;
      ticks := ticks w; sent := sent w |}).

End pool.

(** ** The script *)

Record Config := {
  BATCH_SIZE : Z;
  TOTAL_USERS : Z;
  TOTAL_PRODUCTS : Z;
  TOTAL_ORDERS : Z
}.

(** The constants at the head of the script. *)
Definition script_config : Config :=
  {| BATCH_SIZE := 1000; TOTAL_USERS := 100000; TOTAL_PRODUCTS := 10000;
     TOTAL_ORDERS := 2500000 |}.

Definition randomDate : M (option Z) :=
  start <- Date_2023 ;;
  end_ <- Date_now ;;
  x <- Math_random ;;
  ret (Js.new_Date (Js.int_add start (Js.mul_int x (Js.sub end_ start)))).

(** [Math.floor(Math.random() * n) + 1]. *)
Definition random_id (n : Z) : M Z :=
  x <- Math_random ;;
  ret (Js.add (Js.floor (Js.mul_int x n)) 1).

(** [(Math.random() * 500).toFixed(2)]. *)
Definition random_price : M Z :=
  x <- Math_random ;;
  ret (Js.toFixed2 (Js.mul_int x 500)).

(** The loop nest the four stages share: for each [i] a fresh [values]
    array, [batch] pushes of [tuple i j], one awaited query. *)
Definition batches (fuel : nat) (total batch : Z) (t : table)
    (tuple : Z -> Z -> M row) : M unit :=
  for_loop fuel 0 total batch (fun i _ =>
    values <- for_loop fuel 0 batch 1 (fun j values =>
                r <- tuple i j ;;
                ret (values ++ [r])) [] ;;
    pool.query (Insert t values)) tt.

Definition user_tuple (i j : Z) : M row :=
  let email :=
    ("user" ++ Js.to_string (Js.add (Js.add i j) 1) ++ "@gmail.com")%string in
  ret (UserRow email SqlNow).

Definition product_tuple (i j : Z) : M row :=
  let name := ("Product " ++ Js.to_string (Js.add (Js.add i j) 1))%string in
  price <- random_price ;;
  ret (ProductRow name price).

Definition order_tuple (c : Config) (i j : Z) : M row :=
  user_id <- random_id (TOTAL_USERS c) ;;
  created_at <- randomDate ;;
  iso <- toISOString created_at ;;
  ret (OrderRow user_id iso "completed").

Definition orderitem_tuple (c : Config) (i j : Z) : M row :=
  order_id <- random_id (TOTAL_ORDERS c) ;;
  product_id <- random_id (TOTAL_PRODUCTS c) ;;
  quantity <- random_id 10 ;;
  price <- random_price ;;
  ret (ItemRow order_id product_id quantity price).

Definition insert_users (c : Config) (fuel : nat) : M unit :=
  batches fuel (TOTAL_USERS c) (BATCH_SIZE c) users user_tuple.

Definition insert_products (c : Config) (fuel : nat) : M unit :=
  batches fuel (TOTAL_PRODUCTS c) (BATCH_SIZE c) products product_tuple.

Definition insert_orders (c : Config) (fuel : nat) : M unit :=
  batches fuel (TOTAL_ORDERS c) (BATCH_SIZE c) orders (order_tuple c).

Definition insert_orderitems (c : Config) (fuel : nat) : M unit :=
  let TOTAL_ITEMS := Js.mul (TOTAL_ORDERS c) 3 in
  batches fuel TOTAL_ITEMS (BATCH_SIZE c) orderitems (orderitem_tuple c).

Definition run (c : Config) (fuel : nat) : M unit :=
  insert_users c fuel ;;
  insert_products c fuel ;;
  insert_orders c fuel ;;
  insert_orderitems c fuel ;;
  pool.end_.


(** ** Vocabulary of the specification *)

(** [triple env P m Q]: run in [env] from a world satisfying [P], the way
    [m] ends and the world it leaves satisfy [Q]. *)
Definition triple {A} (env : Env) (P : World -> Prop) (m : M A)
    (Q : result A -> World -> Prop) : Prop :=
  forall w, P w -> Q (fst (m env w)) (snd (m env w)).

Definition settled_ok (q : stmt) : list event := [Submitted q; Settled q true].

Definition rejected (q : stmt) : list event := [Submitted q; Settled q false].

Definition settled_all (qs : list stmt) : list event := flat_map settled_ok qs.

Definition db_exec_all (qs : list stmt) (d : Db) : Db :=
  fold_left (fun d q => db_exec q d) qs d.

(** The backend's part of the world (tables, log, number of statements
    sent) is left alone. *)
Definition quiet (w w' : World) : Prop :=
  db w' = db w /\ log w' = log w /\ sent w' = sent w.

(** What is known of the tuple built at [(i, j)] is [G i j]; the errors
    building it may throw satisfy [E]. *)
Definition tuple_spec (env : Env) (tuple : Z -> Z -> M row)
    (G : Z -> Z -> row -> Prop) (E : error -> Prop) : Prop :=
  forall i j w,
    quiet w (snd (tuple i j env w)) /\
    match fst (tuple i j env w) with
    | Ok r => G i j r
    | Threw x => E x
    | OutOfFuel => False
    end.

(** The statement of the batch that starts at index [i]. *)
Definition batch_of (t : table) (batch : Z) (G : Z -> Z -> row -> Prop)
    (i : Z) (q : stmt) : Prop :=
  into q = t /\
  Z.of_nat (length (values q)) = batch /\
  forall j r, nth_error (values q) j = Some r -> G i (Z.of_nat j) r.

Definition batch_seq (t : table) (batch : Z) (G : Z -> Z -> row -> Prop)
    (qs : list stmt) : Prop :=
  forall n q,
    nth_error qs n = Some q -> batch_of t batch G (Z.of_nat n * batch) q.

Definition accepted_from (env : Env) (k : nat) (qs : list stmt) : Prop :=
  forall n, (n < length qs)%nat -> rejects env (k + n) = false.

(** The outcome of a stage run with [fuel] from [w]: the statements [qs]
    went through, then [tail] (empty, or the rejected statement). *)
Definition stage_post (env : Env) (t : table) (total batch : Z)
    (G : Z -> Z -> row -> Prop) (E : error -> Prop)
    (fuel : nat) (w : World) (r : result unit) (w' : World) : Prop :=
  exists qs tail,
    batch_seq t batch G qs /\
    accepted_from env (sent w) qs /\
    log w' = log w ++ settled_all qs ++ tail /\
    db w' = db_exec_all qs (db w) /\
    sent w' = (sent w + length qs + length tail / 2)%nat /\
    let n := Z.of_nat (length qs) in
    match r with
    | Ok _ =>
        tail = [] /\ total <= n * batch /\ (n = 0 \/ (n - 1) * batch < total)
    | Threw x =>
        (tail = [] /\ E x) \/
        (x = QueryError /\ n * batch < total /\
         rejects env (sent w + length qs) = true /\
         exists q, tail = rejected q /\ batch_of t batch G (n * batch) q)
    | OutOfFuel =>
        tail = [] /\ (Z.of_nat fuel < batch \/ Z.of_nat fuel * batch < total)
    end.

Definition user_email (n : Z) : string :=
  ("user" ++ Js.to_string n ++ "@gmail.com")%string.

Definition product_name (n : Z) : string :=
  ("Product " ++ Js.to_string n)%string.

(** The values the script computes from one draw [x] of [Math.random()]. *)
Definition id_of_draw (x n : Z) : Z := Js.add (Js.floor (Js.mul_int x n)) 1.

Definition price_of_draw (x : Z) : Z := Js.toFixed2 (Js.mul_int x 500).

Definition date_of_draw (start now x : Z) : option Z :=
  Js.new_Date (Js.int_add start (Js.mul_int x (Js.sub now start))).

Definition total_of (c : Config) (t : table) : Z :=
  match t with
  | users => TOTAL_USERS c
  | products => TOTAL_PRODUCTS c
  | orders => TOTAL_ORDERS c
  | orderitems => Js.mul (TOTAL_ORDERS c) 3
  end.

Definition tuple_of (c : Config) (t : table) : Z -> Z -> M row :=
  match t with
  | users => user_tuple
  | products => product_tuple
  | orders => order_tuple c
  | orderitems => orderitem_tuple c
  end.

Definition stage (c : Config) (fuel : nat) (t : table) : M unit :=
  match t with
  | users => insert_users c fuel
  | products => insert_products c fuel
  | orders => insert_orders c fuel
  | orderitems => insert_orderitems c fuel
  end.

(** What each stage's tuple at [(i, j)] is, in terms of the draws and clock
    readings of the environment. *)
Definition tuple_is (env : Env) (c : Config) (t : table) (i j : Z)
    (r : row) : Prop :=
  match t with
  | users => r = UserRow (user_email (Js.add (Js.add i j) 1)) SqlNow
  | products =>
      exists n,
        r = ProductRow (product_name (Js.add (Js.add i j) 1))
              (price_of_draw (random env n))
  | orders =>
      exists n m k ms,
        date_of_draw (start_2023 env) (clock env k) (random env m) = Some ms /\
        r = OrderRow (id_of_draw (random env n) (TOTAL_USERS c))
              (SqlTimestamp ms) "completed"
  | orderitems =>
      exists n1 n2 n3 n4,
        r = ItemRow (id_of_draw (random env n1) (TOTAL_ORDERS c))
              (id_of_draw (random env n2) (TOTAL_PRODUCTS c))
              (id_of_draw (random env n3) 10)
              (price_of_draw (random env n4))
  end.

(** The only error building a tuple can throw: [toISOString] on an invalid
    date, in the orders stage. *)
Definition tuple_throws (env : Env) (t : table) (x : error) : Prop :=
  t = orders /\ x = RangeError /\
  exists m k, date_of_draw (start_2023 env) (clock env k) (random env m) = None.

Definition rank (t : table) : Z :=
  match t with
  | users => 0
  | products => 1
  | orders => 2
  | orderitems => 3
  end.

Definition all_tables : list table := [users; products; orders; orderitems].

(** [n] batches cover [total] and no fewer do. *)
Definition full (total batch : Z) (n : nat) : Prop :=
  total <= Z.of_nat n * batch /\
  (n = 0%nat \/ (Z.of_nat n - 1) * batch < total).

Definition of_table (t : table) (qs : list stmt) : list stmt :=
  filter (fun q => table_eqb (into q) t) qs.

(** [q] is a batch of its stage: [BATCH_SIZE] tuples of that stage, built
    for the batch that starts at a multiple of [BATCH_SIZE]. *)
Definition batch_at (env : Env) (c : Config) (q : stmt) : Prop :=
  exists n : nat,
    batch_of (into q) (BATCH_SIZE c) (tuple_is env c (into q))
      (Z.of_nat n * BATCH_SIZE c) q.

Definition stage_ranks (qs : list stmt) : list Z :=
  map (fun q => rank (into q)) qs.

(** Where a run stands after the stages [ts]: the statements [qs] went
    through, in stage order, then [tail]. *)
Definition progress (env : Env) (c : Config) (fuel : nat) (ts : list table)
    (w : World) (r : result unit) (w' : World) : Prop :=
  exists qs tail,
    Forall (fun q => In (into q) ts /\ batch_at env c q) qs /\
    StronglySorted Z.le (stage_ranks qs) /\
    accepted_from env (sent w) qs /\
    log w' = log w ++ settled_all qs ++ tail /\
    db w' = db_exec_all qs (db w) /\
    sent w' = (sent w + length qs + length tail / 2)%nat /\
    match r with
    | Ok _ =>
        tail = [] /\
        forall t, In t ts ->
          full (total_of c t) (BATCH_SIZE c) (length (of_table t qs))
    | Threw x =>
        (tail = [] /\ exists t, In t ts /\ tuple_throws env t x) \/
        (x = QueryError /\
         rejects env (sent w + length qs) = true /\
         exists q, tail = rejected q /\ In (into q) ts /\ batch_at env c q /\
                   Forall (fun n => n <= rank (into q)) (stage_ranks qs))
    | OutOfFuel =>
        tail = [] /\
        exists t, In t ts /\
          (Z.of_nat fuel < BATCH_SIZE c \/
           Z.of_nat fuel * BATCH_SIZE c < total_of c t)
    end.

(** How [run] ends: the four stages, then the pool is ended. *)
Definition run_post (env : Env) (c : Config) (fuel : nat)
    (w : World) (r : result unit) (w' : World) : Prop :=
  match r with
  | Ok _ =>
      exists w1, progress env c fuel all_tables w (Ok tt) w1 /\
        db w' = db w1 /\ log w' = log w1 ++ [PoolEnded] /\ sent w' = sent w1
  | _ => progress env c fuel all_tables w r w'
  end.

(** Every draw is a number in [[0, 1)] and the clock reads a valid time not
    before local midnight, 1 January 2023. *)
Definition wf_env (e : Env) : Prop :=
  (forall n, Js.unit_interval (random e n)) /\
  0 <= start_2023 e /\
  (forall n, start_2023 e <= clock e n <= Js.MAX_TIME).

Definition accepts_all (e : Env) : Prop := forall n, rejects e n = false.

(** The counters of the script stay where integer arithmetic is exact: the
    batch size is positive and each total, with one batch more, is below
    [2^53]. *)
Definition safe (c : Config) : Prop :=
  0 < BATCH_SIZE c /\
  forall t, total_of c t + BATCH_SIZE c < Js.MAX_SAFE.

(** The iteration budget covers every loop of the run. *)
Definition enough (c : Config) (fuel : nat) : Prop :=
  BATCH_SIZE c <= Z.of_nat fuel /\
  forall t, total_of c t <= Z.of_nat fuel * BATCH_SIZE c.

Definition ceil_div (a b : Z) : Z := a / b + (if a mod b =? 0 then 0 else 1).

(** The rows the statements [qs] add to table [t]. *)
Definition inserted (t : table) (qs : list stmt) : list row :=
  concat (map values (of_table t qs)).

(** An environment in which nothing goes wrong: every draw is one half, the
    clock stands at a moment in November 2023, the backend accepts every
    statement, and the local zone is UTC. *)
Definition quiet_env : Env :=
  {| random := fun _ => 2 ^ 1073;
     clock := fun _ => 1700000000000;
     rejects := fun _ => false;
     start_2023 := 1672531200000 |}.

(** The same, but the backend rejects the statement submitted [k]-th
    (counting from zero). *)
Definition failing_env (k : nat) : Env :=
  {| random := fun _ => 2 ^ 1073;
     clock := fun _ => 1700000000000;
     rejects := fun n => Nat.eqb n k;
     start_2023 := 1672531200000 |}.

(** The scenario of five users in batches of two. *)
Definition five_by_two : Config :=
  {| BATCH_SIZE := 2; TOTAL_USERS := 5; TOTAL_PRODUCTS := 2;
     TOTAL_ORDERS := 2 |}.

(** The statements submitted, in order. *)
Definition submitted (l : list event) : list stmt :=
  flat_map (fun e => match e with Submitted q => [q] | _ => [] end) l.

Definition batch_sizes (l : list event) : list nat :=
  map (fun q => length (values q)) (submitted l).

(** How the log of a run ends, by the way the run ends. *)
Definition trace_end (env : Env) (c : Config) (k : nat) (qs : list stmt)
    (r : result unit) (tail : list event) : Prop :=
  match r with
  | Ok _ => tail = [PoolEnded]
  | Threw x =>
      tail = [] \/
      (x = QueryError /\
       rejects env (k + length qs) = true /\
       exists q, tail = rejected q /\ batch_at env c q /\
                 Forall (fun n => n <= rank (into q)) (stage_ranks qs))
  | OutOfFuel => tail = []
  end.

Definition user_row (n : Z) : row := UserRow (user_email n) SqlNow.

(** [len] consecutive integers from [start]. *)
Definition Z_seq (start : Z) (len : nat) : list Z :=
  map (fun k => start + Z.of_nat k) (seq 0 len).




(** The statements of table [t] the backend accepted, counted in a stretch
    of the log. *)
Definition accepted_into (t : table) (l : list event) : nat :=
  length (filter (fun e => match e with
                           | Settled q true => table_eqb (into q) t
                           | _ => false
                           end) l).

(** A configuration with nothing to insert. *)
Definition nothing_to_do : Config :=
  {| BATCH_SIZE := 1000; TOTAL_USERS := 0; TOTAL_PRODUCTS := 0;
     TOTAL_ORDERS := 0 |}.


(** The statements a complete run sends: one per batch of each stage. *)
Definition statements_of (c : Config) : Z :=
  ceil_div (total_of c users) (BATCH_SIZE c) +
  ceil_div (total_of c products) (BATCH_SIZE c) +
  ceil_div (total_of c orders) (BATCH_SIZE c) +
  ceil_div (total_of c orderitems) (BATCH_SIZE c).

(** [w] after [a] more draws and [b] more clock readings. *)
Definition bump (a b : nat) (w : World) : World :=
  {| db := db w; log := log w; draws := a + draws w; ticks := b + ticks w;
     sent := sent w |}.

(** The rows a stage that is not interrupted builds for table [t]: its total
    rounded up to whole batches. *)
Definition rows_made (c : Config) (t : table) : nat :=
  Z.to_nat (ceil_div (total_of c t) (BATCH_SIZE c) * BATCH_SIZE c).

(** The statements of the batches [m .. m + len - 1], when the tuple of
    index [k] is [h k]. *)
Definition listed (t : table) (h : nat -> row) (B m len : nat) : list stmt :=
  map (fun m' => Insert t (map h (seq (m' * B) B))) (seq m len).

(** The [k]-th tuple (from zero) of a products stage that starts at draw
    [d0]. *)
Definition product_row (env : Env) (d0 k : nat) : row :=
  ProductRow (product_name (Z.of_nat k + 1))
    (price_of_draw (random env (d0 + k))).

(** The [k]-th tuple of an orders stage that starts at draw [d0] and clock
    reading [t0]; none when the date is invalid. *)
Definition order_row (env : Env) (c : Config) (d0 t0 k : nat) : option row :=
  match date_of_draw (start_2023 env) (clock env (t0 + k))
          (random env (d0 + 2 * k + 1)) with
  | Some ms =>
      Some (OrderRow (id_of_draw (random env (d0 + 2 * k)) (TOTAL_USERS c))
              (SqlTimestamp ms) "completed")
  | None => None
  end.

(** The [k]-th tuple of an order items stage that starts at draw [d0]. *)
Definition item_row (env : Env) (c : Config) (d0 k : nat) : row :=
  ItemRow (id_of_draw (random env (d0 + 4 * k)) (TOTAL_ORDERS c))
    (id_of_draw (random env (d0 + 4 * k + 1)) (TOTAL_PRODUCTS c))
    (id_of_draw (random env (d0 + 4 * k + 2)) 10)
    (price_of_draw (random env (d0 + 4 * k + 3))).

(** An environment whose clock is far beyond the range of [Date]. *)
Definition late_env : Env :=
  {| random := fun _ => 2 ^ 1073;
     clock := fun _ => 100000000000000000;
     rejects := fun _ => false;
     start_2023 := 1672531200000 |}.

(** An environment whose clock stands in 2020, before the start date. *)
Definition early_env : Env :=
  {| random := fun _ => 2 ^ 1073;
     clock := fun _ => 1600000000000;
     rejects := fun _ => false;
     start_2023 := 1672531200000 |}.

(** The stages [ts] one after the other, then [pool.end()]: [run] is
    [stages] of the four tables. *)
Definition stages (c : Config) (fuel : nat) (ts : list table) : M unit :=
  fold_right (fun t k => stage c fuel t ;; k) pool.end_ ts.

(** Table [t] holds what it held in [w] and, after that, the rows of a
    completed stage: whole batches that cover its total. *)
Definition stage_done (c : Config) (t : table) (w w' : World) : Prop :=
  exists rows n,
    db w' t = db w t ++ rows /\
    full (total_of c t) (BATCH_SIZE c) n /\
    Z.of_nat (length rows) = Z.of_nat n * BATCH_SIZE c.

(** The number of single quotes in a text. *)
Definition quotes (s : string) : nat :=
  length (filter (Ascii.eqb "'") (list_ascii_of_string s)).

(** The quotes the template of each stage writes around the values of one
    tuple. *)
Definition template_quotes (t : table) : nat :=
  match t with
  | users => 2
  | products => 2
  | orders => 4
  | orderitems => 0
  end.

(** ** Reasoning about computations *)

Section Triples.

Variable env : Env.

Lemma triple_weaken {A} (P P' : World -> Prop) (m : M A)
    (Q Q' : result A -> World -> Prop) :
  triple env P' m Q' ->
  (forall w, P w -> P' w) ->
  (forall r w, Q' r w -> Q r w) ->
  triple env P m Q.
Proof. intros H HP HQ w Hw. apply HQ, H, HP, Hw. Qed.

Lemma triple_bind {A B} (P : World -> Prop) (m : M A) (f : A -> M B)
    (R : result A -> World -> Prop) (Q : result B -> World -> Prop) :
  triple env P m R ->
  (forall a, triple env (R (Ok a)) (f a) Q) ->
  (forall x w, R (Threw x) w -> Q (Threw x) w) ->
  (forall w, R OutOfFuel w -> Q OutOfFuel w) ->
  triple env P (bind m f) Q.
Proof.
  intros Hm Hf Hx Ho w Hw. specialize (Hm w Hw). unfold bind.
  destruct (m env w) as [[a | x | ] w']; simpl in *.
  - apply Hf, Hm.
  - apply Hx, Hm.
  - apply Ho, Hm.
Qed.

(** The loop rule, for a loop whose index is incremented exactly.  [I n s]
    is the invariant before iteration number [n] (counted from the start
    of the loop), where the index is [i0 + n * step]; the loop starts at
    iteration [n0] with [fuel] iterations left. *)
Lemma triple_for {S} (I : nat -> S -> World -> Prop)
    (Q : result S -> World -> Prop) (i0 bound step : Z)
    (body : Z -> S -> M S) :
  (forall n : nat, i0 + Z.of_nat n * step < bound ->
     Js.add (i0 + Z.of_nat n * step) step
     = i0 + Z.of_nat (Datatypes.S n) * step) ->
  (forall n s, i0 + Z.of_nat n * step < bound ->
     triple env (I n s) (body (i0 + Z.of_nat n * step) s)
       (fun r w => match r with
                   | Ok s' => I (Datatypes.S n) s' w
                   | Threw x => Q (Threw x) w
                   | OutOfFuel => Q OutOfFuel w
                   end)) ->
  (forall n s w, bound <= i0 + Z.of_nat n * step -> I n s w -> Q (Ok s) w) ->
  forall fuel n0,
  (forall s w, i0 + Z.of_nat (n0 + fuel) * step < bound ->
     I (n0 + fuel)%nat s w -> Q OutOfFuel w) ->
  forall s,
  triple env (I n0 s)
    (for_loop fuel (i0 + Z.of_nat n0 * step) bound step body s) Q.
Proof.
  intros Hstep Hbody Hexit fuel.
  induction fuel as [| fuel IH]; intros n0 Hout s w Hw.
  - simpl. destruct (i0 + Z.of_nat n0 * step <? bound) eqn:E.
    + simpl. apply Z.ltb_lt in E. apply (Hout s w).
      * rewrite Nat.add_0_r. exact E.
      * rewrite Nat.add_0_r. exact Hw.
    + apply Z.ltb_ge in E. simpl. eapply Hexit; eauto.
  - simpl. destruct (i0 + Z.of_nat n0 * step <? bound) eqn:E.
    + apply Z.ltb_lt in E.
      revert w Hw.
      apply (triple_bind (I n0 s) _ _
               (fun r w => match r with
                           | Ok s' => I (Datatypes.S n0) s' w
                           | Threw x => Q (Threw x) w
                           | OutOfFuel => Q OutOfFuel w
                           end)).
      * apply Hbody, E.
      * intros s'. rewrite (Hstep n0 E).
        apply IH. intros s0 w0 Hlt Hi.
        replace (Datatypes.S n0 + fuel)%nat with (n0 + Datatypes.S fuel)%nat in * by lia.
        eapply Hout; eauto.
      * auto.
      * auto.
    + apply Z.ltb_ge in E. simpl. eapply Hexit; eauto.
Qed.

End Triples.

(** ** Facts about JavaScript numbers *)

Lemma round53_small (z : Z) : Z.abs z < 2 ^ 53 -> Js.round53 z = z.
Proof.
  intros H. unfold Js.round53, Js.round53_pos.
  apply Z.ltb_lt in H. rewrite H. rewrite Z.mul_comm. apply Z.abs_sgn.
Qed.

Lemma add_small (a b : Z) :
  0 <= a + b < Js.MAX_SAFE -> Js.add a b = a + b.
Proof.
  intros H. apply round53_small. unfold Js.MAX_SAFE in H.
  rewrite Z.abs_eq; lia.
Qed.

Lemma round53_nonneg (z : Z) : 0 <= z -> Js.round53 z = Js.round53_pos z.
Proof.
  intros H. unfold Js.round53. rewrite Z.abs_eq by assumption.
  destruct (Z.eq_dec z 0) as [-> | Hz].
  - reflexivity.
  - rewrite Z.sgn_pos by lia. lia.
Qed.

(** The two candidates of a rounding and when each is taken. *)
Lemma round53_pos_cases (z : Z) :
  2 ^ 53 <= z ->
  exists k q r,
    1 <= k /\ 2 ^ (k + 52) <= z < 2 ^ (k + 53) /\
    z = q * 2 ^ k + r /\ 0 <= r < 2 ^ k /\
    (Js.round53_pos z = q * 2 ^ k /\ 2 * r <= 2 ^ k \/
     Js.round53_pos z = (q + 1) * 2 ^ k /\ 2 ^ k <= 2 * r).
Proof.
  intros Hz.
  assert (Hpos : 0 < z) by (assert (0 < 2 ^ 53) by (apply Z.pow_pos_nonneg; lia); lia).
  assert (Hlog : 53 <= Z.log2 z) by (apply Z.log2_le_pow2; lia).
  pose proof (Z.log2_spec z Hpos) as [Hlo Hhi].
  exists (Z.log2 z - 52), (z / 2 ^ (Z.log2 z - 52)), (z mod 2 ^ (Z.log2 z - 52)).
  set (k := Z.log2 z - 52) in *.
  assert (Hk : 1 <= k) by (unfold k; lia).
  assert (HK : 0 < 2 ^ k) by (apply Z.pow_pos_nonneg; lia).
  assert (Hhalf : 2 ^ k = 2 * 2 ^ (k - 1)).
  { replace k with (1 + (k - 1)) at 1 by lia.
    rewrite Z.pow_add_r by lia. reflexivity. }
  split; [assumption |]. split.
  { replace (k + 52) with (Z.log2 z) by (unfold k; lia).
    replace (k + 53) with (Z.succ (Z.log2 z)) by (unfold k; lia). lia. }
  split.
  { rewrite Z.mul_comm. apply Z.div_mod. lia. }
  split; [apply Z.mod_pos_bound; assumption |].
  unfold Js.round53_pos.
  destruct (z <? 2 ^ 53) eqn:E53; [apply Z.ltb_lt in E53; lia |].
  fold k. cbv zeta.
  destruct (z mod 2 ^ k <? 2 ^ (k - 1)) eqn:E1.
  - apply Z.ltb_lt in E1. left. split; [reflexivity | lia].
  - apply Z.ltb_ge in E1.
    destruct (2 ^ (k - 1) <? z mod 2 ^ k) eqn:E2.
    + right. split; [reflexivity | lia].
    + apply Z.ltb_ge in E2.
      destruct (Z.even (z / 2 ^ k)).
      * left. split; [reflexivity | lia].
      * right. split; [reflexivity | lia].
Qed.

(** A result in the safe range was computed exactly. *)
Lemma round53_safe (z : Z) :
  0 <= z -> Js.round53 z < Js.MAX_SAFE -> Js.round53 z = z.
Proof.
  intros Hz Hlt. unfold Js.MAX_SAFE in Hlt.
  destruct (Z.lt_ge_cases z (2 ^ 53)) as [Hsmall | Hbig].
  - apply round53_small. rewrite Z.abs_eq; assumption.
  - exfalso. rewrite round53_nonneg in Hlt by assumption.
    destruct (round53_pos_cases z Hbig)
      as (k & q & r & Hk & [Hlo Hhi] & Hqr & Hr & Hcase).
    rewrite Z.pow_add_r in Hlo by lia.
    assert (H2 : 2 ^ 1 <= 2 ^ k) by (apply Z.pow_le_mono_r; lia).
    change (2 ^ 1) with 2 in H2.
    change (2 ^ 53) with (2 * 2 ^ 52) in Hlt.
    assert (Hp : 0 < 2 ^ 52) by reflexivity.
    set (K := 2 ^ k) in *. set (P := 2 ^ 52) in *.
    assert (Hq : P <= q) by nia.
    destruct Hcase as [[Hc _] | [Hc _]]; rewrite Hc in Hlt; nia.
Qed.

Lemma one_split (k : Z) :
  0 <= k <= 1074 -> Js.one = 2 ^ (1074 - k) * 2 ^ k /\ 0 < 2 ^ (1074 - k).
Proof.
  intros Hk. split.
  - rewrite <- Z.pow_add_r by lia. unfold Js.one, Js.emin. f_equal. lia.
  - apply Z.pow_pos_nonneg; lia.
Qed.

Lemma one_pos : 0 < Js.one.
Proof. unfold Js.one, Js.emin. apply Z.pow_pos_nonneg; lia. Qed.

Lemma exponent_bound (z k n : Z) :
  0 <= k -> 2 ^ (k + 52) <= z -> z < n * Js.one -> n <= 2 ^ 53 -> k <= 1074.
Proof.
  intros Hk Hlo Hhi Hn.
  assert (H : 2 ^ (k + 52) < 2 ^ (1074 + 53)).
  { rewrite (Z.pow_add_r 2 1074 53) by lia. fold Js.emin. fold Js.one.
    pose proof one_pos. nia. }
  apply Z.pow_lt_mono_r_iff in H; lia.
Qed.

(** Rounding never crosses an integer: between integers [a <= b < 2^53]
    the rounded value stays between them. *)
Lemma round53_pos_between (z a b : Z) :
  0 <= a -> a * Js.one <= z <= b * Js.one -> b < 2 ^ 53 ->
  a * Js.one <= Js.round53_pos z <= b * Js.one.
Proof.
  intros Ha Hz Hb.
  destruct (Z.lt_ge_cases z (2 ^ 53)) as [Hsmall | Hbig].
  - unfold Js.round53_pos. apply Z.ltb_lt in Hsmall. rewrite Hsmall. exact Hz.
  - destruct (round53_pos_cases z Hbig)
      as (k & q & r & Hk & [Hlo Hhi] & Hqr & Hr & Hcase).
    assert (Hk' : k <= 1074).
    { apply (exponent_bound z k (b + 1)); try lia.
      pose proof one_pos. nia. }
    destruct (one_split k) as [Hone Hc]; [lia |].
    set (K := 2 ^ k) in *. set (c := 2 ^ (1074 - k)) in *.
    assert (HK : 0 < K) by (unfold K; apply Z.pow_pos_nonneg; lia).
    rewrite Hone in *.
    assert (Hq1 : a * c <= q) by nia.
    destruct Hcase as [[-> Hr'] | [-> Hr']].
    + nia.
    + assert (q + 1 <= b * c) by nia. nia.
Qed.

(** A number below one times an integer [n] rounds to a number below [n]. *)
Lemma round53_pos_mul_lt (x n : Z) :
  0 <= x <= Js.one - 2 ^ 1021 -> 1 <= n <= 2 ^ 53 ->
  0 <= Js.round53_pos (x * n) < n * Js.one.
Proof.
  intros Hx Hn.
  assert (H1021 : Js.one = 2 ^ 53 * 2 ^ 1021).
  { rewrite <- Z.pow_add_r by lia. reflexivity. }
  assert (Hp : 0 < 2 ^ 1021) by (apply Z.pow_pos_nonneg; lia).
  assert (Hlt : x * n <= n * Js.one - n * 2 ^ 1021) by nia.
  destruct (Z.lt_ge_cases (x * n) (2 ^ 53)) as [Hsmall | Hbig].
  - unfold Js.round53_pos. pose proof Hsmall as Hs. apply Z.ltb_lt in Hs. rewrite Hs.
    split; [nia |]. nia.
  - destruct (round53_pos_cases (x * n) Hbig)
      as (k & q & r & Hk & [Hlo Hhi] & Hqr & Hr & Hcase).
    assert (Hk' : k <= 1074).
    { apply (exponent_bound (x * n) k n); lia. }
    destruct (one_split k) as [Hone Hc]; [lia |].
    assert (H52 : 2 ^ (k + 52) = 2 ^ k * 2 ^ 52) by (apply Z.pow_add_r; lia).
    set (z := x * n) in *.
    set (K := 2 ^ k) in *. set (c := 2 ^ (1074 - k)) in *.
    assert (HK : 0 < K) by (unfold K; apply Z.pow_pos_nonneg; lia).
    assert (Hq : q + 1 <= n * c) by nia.
    assert (Hq0 : 0 <= q) by nia.
    destruct Hcase as [[-> Hr'] | [-> Hr']].
    + split; nia.
    + split; [nia |].
      destruct (Z.eq_dec (q + 1) (n * c)) as [Heq | Hne]; [| nia].
      exfalso.
      (* the margin n * 2^1021 would have to fit in half a step *)
      assert (2 * (n * 2 ^ 1021) <= K) by nia.
      assert (n * Js.one <= K * 2 ^ 52).
      { rewrite H1021. replace (2 ^ 53) with (2 * 2 ^ 52) by reflexivity. nia. }
      lia.
Qed.

(** The largest number below one is [1 - 2^-53]. *)
Lemma unit_interval_le (x : Z) :
  Js.unit_interval x -> 0 <= x <= Js.one - 2 ^ 1021.
Proof.
  intros [[H0 H1] Hd]. split; [assumption |].
  assert (H1021 : Js.one = 2 ^ 53 * 2 ^ 1021).
  { rewrite <- Z.pow_add_r by lia. reflexivity. }
  assert (Hp : 0 < 2 ^ 1021) by (apply Z.pow_pos_nonneg; lia).
  assert (H53 : 2 ^ 53 = 2 * 2 ^ 52) by reflexivity.
  assert (Hp52 : 0 < 2 ^ 52) by (apply Z.pow_pos_nonneg; lia).
  destruct (Z.lt_ge_cases x (2 ^ 52 * 2 ^ 1021)) as [Hlow | Hhigh]; [nia |].
  unfold Js.is_double in Hd. rewrite round53_nonneg in Hd by assumption.
  assert (Hbig : 2 ^ 53 <= x) by nia.
  destruct (round53_pos_cases x Hbig)
    as (k & q & r & Hk & [Hlo Hhi] & Hqr & Hr & Hcase).
  assert (Hk1 : k = 1021).
  { assert (Ha : 2 ^ (k + 52) < 2 ^ (1074)).
    { fold Js.emin. fold Js.one. lia. }
    apply Z.pow_lt_mono_r_iff in Ha; [| lia | lia].
    assert (Hb : 2 ^ (1021 + 52) < 2 ^ (k + 53)).
    { rewrite (Z.pow_add_r 2 1021 52) by lia. lia. }
    apply Z.pow_lt_mono_r_iff in Hb; lia. }
  subst k. set (K := 2 ^ 1021) in *.
  destruct Hcase as [[Hc Hr'] | [Hc Hr']]; rewrite Hd in Hc; nia.
Qed.

Lemma mul_int_range (x n : Z) :
  Js.unit_interval x -> 1 <= n <= 2 ^ 53 ->
  0 <= Js.mul_int x n < n * Js.one.
Proof.
  intros Hx Hn. apply unit_interval_le in Hx. unfold Js.mul_int.
  rewrite round53_nonneg by nia. apply round53_pos_mul_lt; assumption.
Qed.

Lemma random_id_range (x n : Z) :
  Js.unit_interval x -> 1 <= n < Js.MAX_SAFE ->
  1 <= id_of_draw x n <= n.
Proof.
  intros Hx Hn.
  assert (Hn' : 1 <= n <= 2 ^ 53) by (unfold Js.MAX_SAFE in Hn; lia).
  pose proof (mul_int_range x n Hx Hn') as [H0 H1].
  pose proof one_pos. unfold id_of_draw, Js.floor.
  assert (0 <= Js.mul_int x n / Js.one) by (apply Z.div_pos; lia).
  assert (Js.mul_int x n / Js.one < n)
    by (apply Z.div_lt_upper_bound; lia).
  rewrite add_small by lia. lia.
Qed.

Lemma random_price_range (x : Z) :
  Js.unit_interval x -> 0 <= Js.toFixed2 (Js.mul_int x 500) <= 50000.
Proof.
  intros Hx.
  assert (Hn : 1 <= 500 <= 2 ^ 53) by (split; [lia | apply Z.lt_le_incl; reflexivity]).
  pose proof (mul_int_range x 500 Hx Hn) as [H0 H1].
  pose proof one_pos. unfold Js.toFixed2. split.
  - apply Z.div_pos; lia.
  - assert (H2 : (200 * Js.mul_int x 500 + Js.one) / (2 * Js.one) < 50001)
      by (apply Z.div_lt_upper_bound; lia).
    lia.
Qed.

Lemma randomDate_range (x t0 t1 : Z) :
  Js.unit_interval x -> 0 <= t0 <= t1 -> t1 <= Js.MAX_TIME ->
  exists t, date_of_draw t0 t1 x = Some t /\ t0 <= t <= t1.
Proof.
  intros Hx H01 Hmax.
  assert (Hmt : Js.MAX_TIME < 2 ^ 53) by reflexivity.
  pose proof one_pos as Hone.
  unfold date_of_draw, Js.sub.
  rewrite (round53_small (t1 - t0)) by (rewrite Z.abs_eq; lia).
  assert (Hy : 0 <= Js.mul_int x (t1 - t0) <= (t1 - t0) * Js.one).
  { destruct (Z.eq_dec t0 t1) as [-> | Hne].
    - rewrite Z.sub_diag. unfold Js.mul_int. rewrite Z.mul_0_r. cbn. lia.
    - assert (Hn : 1 <= t1 - t0 <= 2 ^ 53) by lia.
      pose proof (mul_int_range x (t1 - t0) Hx Hn). lia. }
  set (y := Js.mul_int x (t1 - t0)) in *.
  assert (Hv : t0 * Js.one <= Js.int_add t0 y <= t1 * Js.one).
  { unfold Js.int_add, Js.of_int. rewrite round53_nonneg by nia.
    apply round53_pos_between; nia. }
  set (v := Js.int_add t0 y) in *.
  exists (v / Js.one). split.
  - unfold Js.new_Date.
    assert (Hv0 : 0 <= v) by nia.
    rewrite Z.abs_eq by assumption.
    destruct (v >? Js.MAX_TIME * Js.one) eqn:Egt.
    + apply Z.gtb_lt in Egt. nia.
    + rewrite Z.quot_div_nonneg by lia. reflexivity.
  - split.
    + apply Z.div_le_lower_bound; lia.
    + assert (v / Js.one < t1 + 1) by (apply Z.div_lt_upper_bound; nia). lia.
Qed.

(** ** What a stage does *)

Section Stage.

Variable env : Env.
Variable t : table.
Variable tuple : Z -> Z -> M row.
Variables total batch : Z.

(** What is known of the tuple built at [(i, j)], and of the errors
    building it may throw. *)
Variable G : Z -> Z -> row -> Prop.
Variable E : error -> Prop.

Hypothesis tuple_ok : tuple_spec env tuple G E.

Lemma values_spec (fuel : nat) (i : Z) (w0 : World) :
  batch < Js.MAX_SAFE ->
  triple env (fun w => quiet w0 w)
    (for_loop fuel 0 batch 1
       (fun j values => r <- tuple i j ;; ret (values ++ [r])) [])
    (fun r w =>
       quiet w0 w /\
       match r with
       | Ok vs =>
           Z.of_nat (length vs) = Z.max 0 batch /\
           forall j r, nth_error vs j = Some r -> G i (Z.of_nat j) r
       | Threw x => E x
       | OutOfFuel => Z.of_nat fuel < batch
       end).
Proof.
  intros Hsafe.
  pose (I := fun (n : nat) (vs : list row) (w : World) =>
               quiet w0 w /\ length vs = n /\ Z.of_nat n <= Z.max 0 batch /\
               forall j r, nth_error vs j = Some r -> G i (Z.of_nat j) r).
  apply (triple_weaken env _ (I 0%nat []) _ _
           (fun r w =>
              quiet w0 w /\
              match r with
              | Ok vs =>
                  Z.of_nat (length vs) = Z.max 0 batch /\
                  forall j r, nth_error vs j = Some r -> G i (Z.of_nat j) r
              | Threw x => E x
              | OutOfFuel => Z.of_nat fuel < batch
              end)).
  - apply (triple_for env I _ 0 batch 1 _) with (n0 := 0%nat).
    + intros n Hn. rewrite add_small; lia.
    + intros n vs Hn w (Hq & Hlen & Hle & Hrows).
      unfold bind. destruct (tuple_ok i (0 + Z.of_nat n * 1) w) as [Hq' Hr].
      destruct (tuple i (0 + Z.of_nat n * 1) env w) as [[r | x | ] w'];
        simpl in *.
      * unfold I. split; [| split; [| split]].
        -- unfold quiet in *. intuition congruence.
        -- rewrite length_app. simpl. lia.
        -- lia.
        -- intros j r0 Hj. destruct (Nat.lt_ge_cases j (length vs)) as [Hlt | Hge].
           ++ rewrite nth_error_app1 in Hj by assumption. eauto.
           ++ rewrite nth_error_app2 in Hj by assumption.
              destruct (j - length vs)%nat as [| m] eqn:Em.
              ** simpl in Hj. injection Hj as <-.
                 replace (Z.of_nat j) with (0 + Z.of_nat n * 1) by lia.
                 exact Hr.
              ** simpl in Hj. destruct m; discriminate.
      * split; [unfold quiet in *; intuition congruence | exact Hr].
      * contradiction.
    + intros n vs w Hn (Hq & Hlen & Hle & Hrows). split; [assumption |].
      split; [lia | assumption].
    + intros vs w Hn (Hq & _). split; [assumption | lia].
  - intros w Hq. unfold I. repeat split; try apply Hq; try lia.
    intros [| j] r Hj; discriminate.
  - auto.
Qed.

Lemma batch_seq_snoc (qs : list stmt) (q : stmt) :
  batch_seq t batch G qs -> batch_of t batch G (Z.of_nat (length qs) * batch) q ->
  batch_seq t batch G (qs ++ [q]).
Proof.
  intros Hqs Hq n q' Hn.
  destruct (Nat.lt_ge_cases n (length qs)) as [Hlt | Hge].
  - rewrite nth_error_app1 in Hn by assumption. auto.
  - rewrite nth_error_app2 in Hn by assumption.
    destruct (n - length qs)%nat as [| m] eqn:Em.
    + simpl in Hn. injection Hn as <-.
      replace n with (length qs) by lia. exact Hq.
    + simpl in Hn. destruct m; discriminate.
Qed.

Lemma accepted_from_snoc (k : nat) (qs : list stmt) (q : stmt) :
  accepted_from env k qs -> rejects env (k + length qs) = false ->
  accepted_from env k (qs ++ [q]).
Proof.
  intros Hqs Hq n Hn. rewrite length_app in Hn. simpl in Hn.
  destruct (Nat.eq_dec n (length qs)) as [-> | Hne]; [assumption |].
  apply Hqs. lia.
Qed.

Hypothesis batch_pos : 0 < batch.
Hypothesis total_safe : total + batch < Js.MAX_SAFE.

Theorem batches_spec (fuel : nat) (w : World) :
  stage_post env t total batch G E fuel w (fst (batches fuel total batch t tuple env w))
    (snd (batches fuel total batch t tuple env w)).
Proof.
  pose (I := fun (n : nat) (_ : unit) (w' : World) =>
     exists qs, length qs = n /\ batch_seq t batch G qs /\
       accepted_from env (sent w) qs /\
       log w' = log w ++ settled_all qs /\
       db w' = db_exec_all qs (db w) /\
       sent w' = (sent w + n)%nat /\
       (n = 0%nat \/ (Z.of_nat n - 1) * batch < total)).
  unfold batches.
  apply (triple_for env I (stage_post env t total batch G E fuel w)
           0 total batch _) with (n0 := 0%nat).
  - intros n Hn. rewrite add_small; nia.
  - intros n [] Hn w1 (qs & Hlen & Hseq & Hacc & Hlog & Hdb & Hsent & Hcnt).
    unfold bind.
    assert (Hsafe : batch < Js.MAX_SAFE) by nia.
    pose proof (values_spec fuel (0 + Z.of_nat n * batch) w1 Hsafe w1) as Hv.
    specialize (Hv (conj eq_refl (conj eq_refl eq_refl))).
    destruct (for_loop fuel 0 batch 1 _ [] env w1) as [[vs | x | ] w2];
      simpl in Hv; destruct Hv as [(Hq1 & Hq2 & Hq3) Hv].
    + destruct Hv as [Hvl Hvr].
      assert (Hb : batch_of t batch G (Z.of_nat (length qs) * batch) (Insert t vs)).
      { unfold batch_of. simpl. split; [reflexivity |]. split; [lia |].
        intros j r Hj. specialize (Hvr j r Hj).
        replace (Z.of_nat (length qs) * batch)
          with (0 + Z.of_nat n * batch) by (subst n; lia).
        exact Hvr. }
      unfold pool.query. destruct (rejects env (sent w2)) eqn:Erej; simpl.
      * exists qs, (rejected (Insert t vs)). simpl.
        rewrite Hq2, Hlog, Hq1, Hdb, Hq3, Hsent, <- app_assoc, Hlen.
        split; [assumption |]. split; [assumption |].
        split; [reflexivity |]. split; [reflexivity |]. split; [lia |].
        right. split; [reflexivity |]. split; [lia |]. split.
        -- rewrite <- Hsent, <- Hq3. exact Erej.
        -- exists (Insert t vs). split; [reflexivity |].
           rewrite <- Hlen. exact Hb.
      * exists (qs ++ [Insert t vs]).
        split; [rewrite length_app; simpl; lia |]. split; [apply batch_seq_snoc; assumption |].
        split.
        { apply accepted_from_snoc; [assumption |].
          rewrite Hlen, <- Hsent, <- Hq3. exact Erej. }
        split.
        { simpl. rewrite Hq2, Hlog, <- app_assoc. unfold settled_all.
          rewrite flat_map_app. reflexivity. }
        split.
        { unfold db_exec_all. rewrite fold_left_app. simpl.
          unfold db_exec_all in Hdb. rewrite <- Hdb, Hq1. reflexivity. }
        split; [simpl; lia |]. right.
        replace (Z.of_nat (S n) - 1) with (Z.of_nat n) by lia. lia.
    + simpl. exists qs, []. simpl. rewrite app_nil_r, Hq2, Hq1, Hq3, Hlen.
      split; [assumption |]. split; [assumption |].
      split; [assumption |]. split; [assumption |]. split; [lia |].
      left. split; [reflexivity | exact Hv].
    + simpl. exists qs, []. simpl. rewrite app_nil_r, Hq2, Hq1, Hq3, Hlen.
      split; [assumption |]. split; [assumption |].
      split; [assumption |]. split; [assumption |]. split; [lia |].
      split; [reflexivity |]. left. exact Hv.
  - intros n [] w1 Hn (qs & Hlen & Hseq & Hacc & Hlog & Hdb & Hsent & Hcnt).
    exists qs, []. simpl. rewrite app_nil_r, Hlen.
    split; [assumption |]. split; [assumption |].
    split; [assumption |]. split; [assumption |]. split; [lia |].
    split; [reflexivity |]. split; [lia |].
    destruct Hcnt as [-> | Hcnt]; [left; reflexivity | right; lia].
  - intros [] w1 Hn (qs & Hlen & Hseq & Hacc & Hlog & Hdb & Hsent & Hcnt).
    exists qs, []. simpl. rewrite app_nil_r, Hlen.
    simpl in Hn.
    split; [assumption |]. split; [assumption |].
    split; [assumption |]. split; [assumption |]. split; [lia |].
    split; [reflexivity |]. right. lia.
  - exists []. simpl. rewrite app_nil_r.
    split; [reflexivity |].
    split; [intros [| n] q Hq; discriminate |].
    split; [intros n Hn; simpl in Hn; lia |].
    split; [reflexivity |]. split; [reflexivity |]. split; [lia |].
    left. reflexivity.
Qed.

End Stage.

(** ** The four stages *)

Lemma stage_batches (c : Config) (fuel : nat) (t : table) :
  stage c fuel t = batches fuel (total_of c t) (BATCH_SIZE c) t (tuple_of c t).
Proof. destruct t; reflexivity. Qed.

Lemma tuple_of_spec (env : Env) (c : Config) (t : table) :
  tuple_spec env (tuple_of c t) (tuple_is env c t) (tuple_throws env t).
Proof.
  intros i j w. destruct t; simpl.
  - split; [repeat split | reflexivity].
  - split; [repeat split |]. exists (draws w). reflexivity.
  - unfold order_tuple, random_id, randomDate, bind, Math_random, Date_now,
      Date_2023, ret; simpl.
    destruct (Js.new_Date _) as [ms |] eqn:Ed; simpl.
    + split; [repeat split |].
      exists (draws w), (S (draws w)), (ticks w), ms. split; [exact Ed | reflexivity].
    + split; [repeat split |].
      split; [reflexivity |]. split; [reflexivity |].
      exists (S (draws w)), (ticks w). exact Ed.
  - split; [repeat split |].
    exists (draws w), (S (draws w)), (S (S (draws w))), (S (S (S (draws w)))).
    reflexivity.
Qed.

Theorem stage_spec (env : Env) (c : Config) (t : table) (fuel : nat)
    (w : World) :
  safe c ->
  stage_post env t (total_of c t) (BATCH_SIZE c) (tuple_is env c t)
    (tuple_throws env t) fuel w
    (fst (stage c fuel t env w)) (snd (stage c fuel t env w)).
Proof.
  intros [Hb Hsafe]. rewrite stage_batches.
  apply batches_spec; [apply tuple_of_spec | exact Hb | apply Hsafe].
Qed.

(** ** The text the backend receives *)

(** The two statements the orders stage and the first the users stage send
    in the scenario of five users in batches of two, as SQL text. *)
Example users_statement_text :
  map Sql.text
    (firstn 1 (submitted
       (log (snd (insert_users five_by_two 3 quiet_env (fresh empty_db)))))) =
  ["INSERT INTO users (email, created_at) VALUES ('user1@gmail.com', NOW()),('user2@gmail.com', NOW())"%string].
Proof. vm_compute. reflexivity. Qed.

Example orders_statement_text :
  map Sql.text
    (submitted
       (log (snd (insert_orders five_by_two 3 quiet_env (fresh empty_db))))) =
  ["INSERT INTO orders (user_id, created_at, status) VALUES (3, '2023-06-08T23:06:40.000Z', 'completed'),(3, '2023-06-08T23:06:40.000Z', 'completed')"%string].
Proof. vm_compute. reflexivity. Qed.

Example orderitems_tuple_text :
  Sql.tuple (ItemRow 2 2 6 25000) = "(2, 2, 6, 250.00)"%string.
Proof. reflexivity. Qed.

(** ** The whole run *)

Lemma table_eqb_eq (a b : table) : table_eqb a b = true <-> a = b.
Proof. destruct a, b; simpl; split; intros H; congruence. Qed.

Lemma sorted_app (l1 l2 : list Z) :
  StronglySorted Z.le l1 -> StronglySorted Z.le l2 ->
  (forall a b, In a l1 -> In b l2 -> a <= b) ->
  StronglySorted Z.le (l1 ++ l2).
Proof.
  intros H1 H2 H. induction l1 as [| a l1 IH]; simpl; [assumption |].
  apply StronglySorted_inv in H1 as [Hs Hf]. constructor.
  - apply IH; [assumption |]. intros a0 b Ha Hb. apply H; simpl; auto.
  - apply Forall_app. split; [assumption |].
    apply Forall_forall. intros b Hb. apply H; simpl; auto.
Qed.

Lemma sorted_const (n : Z) (l : list Z) :
  Forall (fun m => m = n) l -> StronglySorted Z.le l.
Proof.
  induction 1 as [| a l Ha Hl IH]; constructor; [assumption |].
  subst a. eapply Forall_impl; [| exact Hl]. simpl. intros; lia.
Qed.

Lemma batch_seq_at (env : Env) (c : Config) (t : table) (qs : list stmt) :
  batch_seq t (BATCH_SIZE c) (tuple_is env c t) qs ->
  Forall (fun q => into q = t /\ batch_at env c q) qs.
Proof.
  intros H. apply Forall_forall. intros q Hq.
  apply In_nth_error in Hq as [n Hn]. specialize (H n q Hn).
  pose proof H as [Ht _]. split; [exact Ht |].
  exists n. rewrite Ht. exact H.
Qed.

Lemma of_table_same (t : table) (qs : list stmt) :
  Forall (fun q => into q = t) qs -> of_table t qs = qs.
Proof.
  induction 1 as [| q qs Hq _ IH]; simpl; [reflexivity |].
  rewrite Hq. replace (table_eqb t t) with true by (destruct t; reflexivity).
  f_equal. exact IH.
Qed.

Lemma of_table_other (t : table) (qs : list stmt) :
  Forall (fun q => into q <> t) qs -> of_table t qs = [].
Proof.
  induction 1 as [| q qs Hq _ IH]; simpl; [reflexivity |].
  destruct (table_eqb (into q) t) eqn:E; [| exact IH].
  apply table_eqb_eq in E. contradiction.
Qed.

Lemma accepted_from_app (env : Env) (k : nat) (qs1 qs2 : list stmt) :
  accepted_from env k qs1 -> accepted_from env (k + length qs1) qs2 ->
  accepted_from env k (qs1 ++ qs2).
Proof.
  intros H1 H2 n Hn. rewrite length_app in Hn.
  destruct (Nat.lt_ge_cases n (length qs1)) as [Hlt | Hge]; [auto |].
  replace (k + n)%nat with (k + length qs1 + (n - length qs1))%nat by lia.
  apply H2. lia.
Qed.

Lemma db_exec_all_app (qs1 qs2 : list stmt) (d : Db) :
  db_exec_all (qs1 ++ qs2) d = db_exec_all qs2 (db_exec_all qs1 d).
Proof. apply fold_left_app. Qed.

Lemma settled_all_app (qs1 qs2 : list stmt) :
  settled_all (qs1 ++ qs2) = settled_all qs1 ++ settled_all qs2.
Proof. apply flat_map_app. Qed.

Lemma progress_nil (env : Env) (c : Config) (fuel : nat) (w : World) :
  progress env c fuel [] w (Ok tt) w.
Proof.
  exists [], []. simpl. rewrite app_nil_r.
  split; [constructor |]. split; [constructor |].
  split; [intros n Hn; simpl in Hn; lia |].
  split; [reflexivity |]. split; [reflexivity |]. split; [lia |].
  split; [reflexivity |]. intros t [].
Qed.

(** A run that has not ended well stays where it is. *)
Lemma progress_stop (env : Env) (c : Config) (fuel : nat)
    (ts ts' : list table) (w w' : World) (r : result unit) :
  (forall u, r <> Ok u) ->
  progress env c fuel ts w r w' -> progress env c fuel (ts ++ ts') w r w'.
Proof.
  intros Hr (qs & tail & Hall & Hsort & Hacc & Hlog & Hdb & Hsent & Hout).
  exists qs, tail.
  split.
  { eapply Forall_impl; [| exact Hall]. simpl. intros q [Hin Hq].
    split; [apply in_or_app; auto | assumption]. }
  do 5 (split; [assumption |]).
  destruct r as [u | x | ].
  - exfalso. apply (Hr u). reflexivity.
  - destruct Hout as [[Ht (t & Hin & Hx)] | (Hx & Hrej & q & Hq & Hin & Hb)].
    + left. split; [assumption |]. exists t. split; [apply in_or_app; auto | assumption].
    + right. split; [assumption |]. split; [assumption |].
      exists q. split; [assumption |]. split; [apply in_or_app; auto | assumption].
  - destruct Hout as [Ht (t & Hin & Hf)]. split; [assumption |].
    exists t. split; [apply in_or_app; auto | assumption].
Qed.

(** One more stage. *)
Lemma progress_snoc (env : Env) (c : Config) (fuel : nat) (ts : list table)
    (t : table) (w w1 w' : World) (r : result unit) :
  (forall t', In t' ts -> rank t' < rank t) ->
  progress env c fuel ts w (Ok tt) w1 ->
  stage_post env t (total_of c t) (BATCH_SIZE c) (tuple_is env c t)
    (tuple_throws env t) fuel w1 r w' ->
  progress env c fuel (ts ++ [t]) w r w'.
Proof.
  intros Hrank (qs1 & tail1 & Hall1 & Hsort1 & Hacc1 & Hlog1 & Hdb1 & Hsent1
                & -> & Hfull1)
    (qs2 & tail2 & Hseq2 & Hacc2 & Hlog2 & Hdb2 & Hsent2 & Hout).
  simpl in Hsent1. rewrite app_nil_r in Hlog1.
  pose proof (batch_seq_at env c t qs2 Hseq2) as Hall2.
  assert (Hranks1 : Forall (fun n => n < rank t) (stage_ranks qs1)).
  { unfold stage_ranks. apply Forall_map.
    eapply Forall_impl; [| exact Hall1]. simpl. intros q [Hin _]. auto. }
  assert (Hranks2 : Forall (fun n => n = rank t) (stage_ranks qs2)).
  { unfold stage_ranks. apply Forall_map.
    eapply Forall_impl; [| exact Hall2]. simpl. intros q [-> _]. reflexivity. }
  exists (qs1 ++ qs2), tail2.
  split.
  { apply Forall_app. split.
    - eapply Forall_impl; [| exact Hall1]. simpl. intros q [Hin Hq].
      split; [apply in_or_app; auto | assumption].
    - eapply Forall_impl; [| exact Hall2]. simpl. intros q [Hin Hq].
      split; [apply in_or_app; right; left; auto | assumption]. }
  split.
  { unfold stage_ranks. rewrite map_app. apply sorted_app.
    - exact Hsort1.
    - apply (sorted_const (rank t)). exact Hranks2.
    - intros a b Ha Hb.
      rewrite Forall_forall in Hranks1, Hranks2.
      specialize (Hranks1 a Ha). specialize (Hranks2 b Hb). lia. }
  split.
  { apply accepted_from_app; [assumption |].
    replace (sent w + length qs1)%nat with (sent w1) by lia. assumption. }
  split.
  { rewrite Hlog2, Hlog1, settled_all_app, <- !app_assoc. reflexivity. }
  split.
  { rewrite Hdb2, Hdb1, db_exec_all_app. reflexivity. }
  split.
  { rewrite Hsent2, Hsent1, length_app. lia. }
  destruct r as [u | x | ].
  - destruct Hout as (Ht & Hle & Hmin). split; [assumption |].
    intros t' Hin. unfold of_table. rewrite filter_app. fold (of_table t' qs1).
    fold (of_table t' qs2). apply in_app_or in Hin as [Hin | [Heq | []]]; [| subst t'].
    + rewrite (of_table_other t' qs2), app_nil_r; [auto |].
      eapply Forall_impl; [| exact Hall2]. simpl. intros q [Hq _] Heq.
      rewrite Hq in Heq. subst t'. specialize (Hrank t Hin). lia.
    + rewrite (of_table_other t qs1), (of_table_same t qs2); simpl.
      * split; [exact Hle |]. destruct Hmin as [H0 | Hlt]; [left; lia | right; exact Hlt].
      * eapply Forall_impl; [| exact Hall2]. simpl. intros q [Hq _]. exact Hq.
      * eapply Forall_impl; [| exact Hall1]. simpl. intros q [Hq _] Ht'.
        rewrite Ht' in Hq. specialize (Hrank t Hq). lia.
  - destruct Hout as [[Ht Hx] | (Hx & Hlt & Hrej & q & Hq & Hb)].
    + left. split; [assumption |]. exists t.
      split; [apply in_or_app; right; left; reflexivity | assumption].
    + right. split; [assumption |]. split.
      { rewrite length_app.
        replace (sent w + (length qs1 + length qs2))%nat
          with (sent w1 + length qs2)%nat by lia. exact Hrej. }
      exists q. split; [assumption |].
      pose proof Hb as [Hinto _].
      split; [rewrite Hinto; apply in_or_app; right; left; reflexivity |].
      split.
      { exists (length qs2). rewrite Hinto. exact Hb. }
      unfold stage_ranks. rewrite map_app. apply Forall_app. rewrite Hinto. split.
      * eapply Forall_impl; [| exact Hranks1]. simpl. intros; lia.
      * eapply Forall_impl; [| exact Hranks2]. simpl. intros; lia.
  - destruct Hout as [Ht Hf]. split; [assumption |].
    exists t. split; [apply in_or_app; right; left; reflexivity | assumption].
Qed.

Theorem run_spec (env : Env) (c : Config) (fuel : nat) (w : World) :
  safe c ->
  run_post env c fuel w (fst (run c fuel env w)) (snd (run c fuel env w)).
Proof.
  intros Hb. unfold run, bind.
  pose proof (stage_spec env c users fuel w Hb) as Hu. cbn [stage] in Hu.
  apply (progress_snoc env c fuel [] users w w) in Hu;
    [| intros t' [] | apply progress_nil].
  destruct (insert_users c fuel env w) as [[[] | x | ] w1]; simpl in Hu |- *;
    try (apply (progress_stop env c fuel [users] [products; orders; orderitems]);
         [intros u; discriminate | exact Hu]).
  pose proof (stage_spec env c products fuel w1 Hb) as Hp. cbn [stage] in Hp.
  apply (progress_snoc env c fuel [users] products w w1) in Hp;
    [| intros t' [<- | []]; simpl; lia | exact Hu].
  destruct (insert_products c fuel env w1) as [[[] | x | ] w2]; simpl in Hp |- *;
    try (apply (progress_stop env c fuel [users; products] [orders; orderitems]);
         [intros u; discriminate | exact Hp]).
  pose proof (stage_spec env c orders fuel w2 Hb) as Ho. cbn [stage] in Ho.
  apply (progress_snoc env c fuel [users; products] orders w w2) in Ho;
    [| intros t' [<- | [<- | []]]; simpl; lia | exact Hp].
  destruct (insert_orders c fuel env w2) as [[[] | x | ] w3]; simpl in Ho |- *;
    try (apply (progress_stop env c fuel [users; products; orders] [orderitems]);
         [intros u; discriminate | exact Ho]).
  pose proof (stage_spec env c orderitems fuel w3 Hb) as Hi. cbn [stage] in Hi.
  apply (progress_snoc env c fuel [users; products; orders] orderitems w w3) in Hi;
    [| intros t' [<- | [<- | [<- | []]]]; simpl; lia | exact Ho].
  destruct (insert_orderitems c fuel env w3) as [[[] | x | ] w4]; simpl in Hi |- *;
    try exact Hi.
  exists w4. split; [exact Hi |]. repeat split.
Qed.

(** ** Runs that meet no obstacle *)

Lemma no_throw (env : Env) (t : table) (x : error) :
  wf_env env -> ~ tuple_throws env t x.
Proof.
  intros (Hr & H0 & Hc) (_ & _ & m & k & Hd).
  destruct (randomDate_range (random env m) (start_2023 env) (clock env k))
    as (ms & Hms & _); [apply Hr | | apply Hc |].
  - split; [assumption | apply Hc].
  - congruence.
Qed.

Lemma full_ceil (total batch : Z) (n : nat) :
  0 < batch -> 0 <= total -> full total batch n ->
  Z.of_nat n = ceil_div total batch.
Proof.
  intros Hb Ht [Hle Hmin]. unfold ceil_div.
  pose proof (Z.div_mod total batch ltac:(lia)) as Hdm.
  pose proof (Z.mod_pos_bound total batch Hb) as Hm.
  destruct (total mod batch =? 0) eqn:E.
  - apply Z.eqb_eq in E. destruct Hmin as [-> | Hlt]; simpl in *; nia.
  - apply Z.eqb_neq in E. destruct Hmin as [-> | Hlt]; simpl in *; nia.
Qed.

Lemma db_exec_all_rows (qs : list stmt) (d : Db) (t : table) :
  db_exec_all qs d t = d t ++ inserted t qs.
Proof.
  revert d. induction qs as [| q qs IH]; intros d.
  - unfold inserted. simpl. rewrite app_nil_r. reflexivity.
  - unfold db_exec_all in *. simpl. rewrite IH. unfold db_exec at 1.
    unfold inserted. simpl.
    assert (Hsym : table_eqb (into q) t = table_eqb t (into q))
      by (destruct (into q), t; reflexivity).
    rewrite Hsym. destruct (table_eqb t (into q)); simpl.
    + rewrite app_assoc. reflexivity.
    + reflexivity.
Qed.

Lemma inserted_length (env : Env) (c : Config) (t : table)
    (qs : list stmt) :
  Forall (batch_at env c) qs ->
  Z.of_nat (length (inserted t qs)) =
  Z.of_nat (length (of_table t qs)) * BATCH_SIZE c.
Proof.
  unfold inserted, of_table. induction 1 as [| q qs Hq _ IH]; [reflexivity |].
  cbn [filter]. destruct (table_eqb (into q) t); [| exact IH].
  cbn [map concat length]. rewrite length_app, Nat2Z.inj_add, Nat2Z.inj_succ, IH.
  destruct Hq as (n & _ & Hlen & _). lia.
Qed.

(** With well-formed draws and clock, a backend that accepts everything and
    budget enough, the run ends well. *)
Lemma run_ok (env : Env) (c : Config) (fuel : nat) (w : World) :
  safe c -> wf_env env -> accepts_all env -> enough c fuel ->
  fst (run c fuel env w) = Ok tt /\
  exists w1,
    progress env c fuel all_tables w (Ok tt) w1 /\
    db (snd (run c fuel env w)) = db w1 /\
    log (snd (run c fuel env w)) = log w1 ++ [PoolEnded] /\
    sent (snd (run c fuel env w)) = sent w1.
Proof.
  intros Hb Hwf Hacc [Hf1 Hf2].
  pose proof (run_spec env c fuel w Hb) as H. unfold run_post in H.
  destruct (fst (run c fuel env w)) as [[] | x | ].
  - split; [reflexivity | exact H].
  - exfalso. destruct H as (qs & tail & _ & _ & _ & _ & _ & _ & Hout).
    destruct Hout as [[_ (t & _ & Hx)] | (_ & Hrej & _)].
    + exact (no_throw env t x Hwf Hx).
    + rewrite Hacc in Hrej. discriminate.
  - exfalso. destruct H as (qs & tail & _ & _ & _ & _ & _ & _ & _ & t & _ & Hout).
    specialize (Hf2 t). lia.
Qed.

Lemma in_all_tables (t : table) : In t all_tables.
Proof. destruct t; simpl; auto. Qed.

(** What a run that meets no obstacle adds to each table. *)
Lemma run_ok_rows (env : Env) (c : Config) (fuel : nat) (w : World) :
  safe c -> wf_env env -> accepts_all env -> enough c fuel ->
  (forall t, 0 <= total_of c t) ->
  forall t, exists rows,
    db (snd (run c fuel env w)) t = db w t ++ rows /\
    Z.of_nat (length rows) =
    ceil_div (total_of c t) (BATCH_SIZE c) * BATCH_SIZE c.
Proof.
  intros Hb Hwf Hacc Hfuel Hpos t.
  destruct (run_ok env c fuel w Hb Hwf Hacc Hfuel)
    as (_ & w1 & (qs & tail & Hall & _ & _ & _ & Hdb & _ & _ & Hfull) & Hdb' & _).
  exists (inserted t qs). split.
  - rewrite Hdb', Hdb. apply db_exec_all_rows.
  - rewrite (inserted_length env c).
    + rewrite (full_ceil (total_of c t) (BATCH_SIZE c)
                 (length (of_table t qs)) (proj1 Hb) (Hpos t)); [reflexivity |].
      apply Hfull, in_all_tables.
    + eapply Forall_impl; [| exact Hall]. simpl. intros q [_ Hq]. exact Hq.
Qed.

Lemma quiet_env_wf : wf_env quiet_env.
Proof.
  split; [| split].
  - intros n. simpl. split; [split |]; vm_compute; congruence.
  - simpl. lia.
  - intros n. simpl. unfold Js.MAX_TIME. lia.
Qed.

Lemma quiet_env_accepts : accepts_all quiet_env.
Proof. intros n. reflexivity. Qed.

Lemma script_totals (t : table) :
  total_of script_config t =
  match t with
  | users => 100000
  | products => 10000
  | orders => 2500000
  | orderitems => 7500000
  end.
Proof. destruct t; reflexivity. Qed.

Lemma script_config_safe : safe script_config.
Proof.
  split; [reflexivity |]. intros t. rewrite script_totals.
  destruct t; reflexivity.
Qed.

Lemma five_by_two_safe : safe five_by_two.
Proof. split; [reflexivity |]. intros t. destruct t; reflexivity. Qed.

Lemma script_config_enough (fuel : nat) :
  7500 <= Z.of_nat fuel -> enough script_config fuel.
Proof.
  intros H. split; [simpl; lia |]. intros t. rewrite script_totals.
  destruct t; simpl; lia.
Qed.

(** C2. Under the constants of the script (batches of 1000; 100000 users,
    10000 products, 2500000 orders, three items per order), a complete run
    adds exactly 100000 rows to [users], 10000 to [products], 2500000 to
    [orders] and 7500000 to [orderitems], after the rows already there. *)
Theorem script_run_row_counts (env : Env) (fuel : nat) (w : World) :
  wf_env env -> accepts_all env -> 7500 <= Z.of_nat fuel ->
  fst (run script_config fuel env w) = Ok tt /\
  forall t, exists rows,
    db (snd (run script_config fuel env w)) t = db w t ++ rows /\
    Z.of_nat (length rows) =
    match t with
    | users => 100000
    | products => 10000
    | orders => 2500000
    | orderitems => 7500000
    end.
Proof.
  intros Hwf Hacc Hfuel.
  pose proof script_config_safe as Hb.
  pose proof (script_config_enough fuel Hfuel) as He.
  split; [apply (run_ok env script_config fuel w Hb Hwf Hacc He) |].
  intros t.
  destruct (run_ok_rows env script_config fuel w Hb Hwf Hacc He) with (t := t)
    as (rows & Hdb & Hlen).
  { intros t'. rewrite script_totals. destruct t'; lia. }
  exists rows. split; [exact Hdb |]. rewrite Hlen, script_totals.
  destruct t; reflexivity.
Qed.

Lemma script_run_row_counts_witness :
  wf_env quiet_env /\ accepts_all quiet_env /\
  fst (run script_config (Z.to_nat 7500) quiet_env (fresh empty_db)) = Ok tt /\
  forall t, exists rows,
    db (snd (run script_config (Z.to_nat 7500) quiet_env (fresh empty_db))) t
      = db (fresh empty_db) t ++ rows /\
    Z.of_nat (length rows) =
    match t with
    | users => 100000
    | products => 10000
    | orders => 2500000
    | orderitems => 7500000
    end.
Proof.
  assert (Hfuel : 7500 <= Z.of_nat (Z.to_nat 7500))
    by (rewrite Z2Nat.id; discriminate).
  split; [exact quiet_env_wf |]. split; [exact quiet_env_accepts |].
  exact (script_run_row_counts quiet_env (Z.to_nat 7500) (fresh empty_db)
           quiet_env_wf quiet_env_accepts Hfuel).
Defined.

Lemma stage_ok (env : Env) (c : Config) (fuel : nat) (t : table) (w : World) :
  safe c -> wf_env env -> accepts_all env ->
  BATCH_SIZE c <= Z.of_nat fuel ->
  0 <= total_of c t <= Z.of_nat fuel * BATCH_SIZE c ->
  fst (stage c fuel t env w) = Ok tt /\
  exists qs,
    batch_seq t (BATCH_SIZE c) (tuple_is env c t) qs /\
    Z.of_nat (length qs) = ceil_div (total_of c t) (BATCH_SIZE c) /\
    log (snd (stage c fuel t env w)) = log w ++ settled_all qs /\
    db (snd (stage c fuel t env w)) = db_exec_all qs (db w).
Proof.
  intros Hb Hwf Hacc Hf1 [Ht0 Hf2].
  pose proof (stage_spec env c t fuel w Hb)
    as (qs & tail & Hseq & _ & Hlog & Hdb & _ & Hout).
  destruct (fst (stage c fuel t env w)) as [[] | x | ].
  - split; [reflexivity |]. destruct Hout as (-> & Hle & Hmin).
    exists qs. rewrite app_nil_r in Hlog.
    split; [exact Hseq |]. split; [| split; assumption].
    apply full_ceil; [apply Hb | assumption |]. split; [exact Hle |].
    destruct Hmin as [H0 | Hlt]; [left; lia | right; exact Hlt].
  - exfalso. destruct Hout as [[_ Hx] | (_ & _ & Hrej & _)].
    + exact (no_throw env t x Hwf Hx).
    + rewrite Hacc in Hrej. discriminate.
  - exfalso. destruct Hout as [_ [Hlt | Hlt]]; lia.
Qed.

Lemma batch_seq_into (t : table) (batch : Z) (G : Z -> Z -> row -> Prop)
    (qs : list stmt) :
  batch_seq t batch G qs ->
  Forall (fun q => into q = t /\ Z.of_nat (length (values q)) = batch) qs.
Proof.
  intros H. apply Forall_forall. intros q Hq.
  apply In_nth_error in Hq as [n Hn]. destruct (H n q Hn) as (Ht & Hl & _).
  split; assumption.
Qed.

Lemma rows_of_batches (t : table) (batch : Z) (qs : list stmt) :
  Forall (fun q => into q = t /\ Z.of_nat (length (values q)) = batch) qs ->
  inserted t qs = concat (map values qs) /\
  Z.of_nat (length (concat (map values qs))) = Z.of_nat (length qs) * batch.
Proof.
  intros H. split.
  - unfold inserted. rewrite of_table_same; [reflexivity |].
    eapply Forall_impl; [| exact H]. simpl. intros q [Hq _]. exact Hq.
  - induction H as [| q qs [_ Hq] _ IH]; [reflexivity |].
    cbn [map concat length]. rewrite length_app, Nat2Z.inj_add, Nat2Z.inj_succ, IH.
    lia.
Qed.

(** What a stage that meets no obstacle submits and stores. *)
Lemma stage_ok_rows (env : Env) (c : Config) (fuel : nat) (t : table)
    (w : World) :
  safe c -> wf_env env -> accepts_all env ->
  BATCH_SIZE c <= Z.of_nat fuel ->
  0 <= total_of c t <= Z.of_nat fuel * BATCH_SIZE c ->
  fst (stage c fuel t env w) = Ok tt /\
  exists qs,
    log (snd (stage c fuel t env w)) = log w ++ settled_all qs /\
    Z.of_nat (length qs) = ceil_div (total_of c t) (BATCH_SIZE c) /\
    Forall (fun q => into q = t /\
                     Z.of_nat (length (values q)) = BATCH_SIZE c) qs /\
    db (snd (stage c fuel t env w)) t = db w t ++ concat (map values qs) /\
    (total_of c t mod BATCH_SIZE c = 0 ->
     Z.of_nat (length (concat (map values qs))) = total_of c t).
Proof.
  intros Hb Hwf Hacc Hf1 Hf2.
  destruct (stage_ok env c fuel t w Hb Hwf Hacc Hf1 Hf2)
    as (Hok & qs & Hseq & Hlen & Hlog & Hdb).
  split; [exact Hok |]. exists qs.
  pose proof (batch_seq_into _ _ _ _ Hseq) as Hall.
  destruct (rows_of_batches t (BATCH_SIZE c) qs Hall) as [Hins Hrows].
  split; [exact Hlog |]. split; [exact Hlen |]. split; [exact Hall |].
  split.
  { rewrite Hdb, db_exec_all_rows, Hins. reflexivity. }
  intros Hdiv. rewrite Hrows, Hlen. unfold ceil_div. rewrite Hdiv. simpl.
  pose proof (proj1 Hb).
  pose proof (Z.div_mod (total_of c t) (BATCH_SIZE c) ltac:(lia)). lia.
Qed.

(** C1, as the code has it.  With a positive batch size and a total that is
    not negative (and, with one batch more, below [2^53]), each of the four
    stages, meeting no obstacle, submits exactly [ceil (total / batch_size)]
    statements, each of exactly [batch_size] rows and each accepted before
    the next is sent, and appends their rows to its table; the rows number
    exactly [total] when the batch size divides the total.  With five users
    in batches of two, three statements of two rows each are submitted and
    the table holds six rows, whose emails are user1 to user6, all
    distinct. *)
Theorem stage_batches_and_rows (env : Env) (c : Config) (fuel : nat)
    (t : table) (w : World) :
  safe c -> wf_env env -> accepts_all env ->
  BATCH_SIZE c <= Z.of_nat fuel ->
  0 <= total_of c t <= Z.of_nat fuel * BATCH_SIZE c ->
  (fst (stage c fuel t env w) = Ok tt /\
   exists qs,
     log (snd (stage c fuel t env w)) = log w ++ settled_all qs /\
     Z.of_nat (length qs) = ceil_div (total_of c t) (BATCH_SIZE c) /\
     Forall (fun q => into q = t /\
                      Z.of_nat (length (values q)) = BATCH_SIZE c) qs /\
     db (snd (stage c fuel t env w)) t = db w t ++ concat (map values qs) /\
     (total_of c t mod BATCH_SIZE c = 0 ->
      Z.of_nat (length (concat (map values qs))) = total_of c t)) /\
  (let w5 := snd (insert_users five_by_two 3 quiet_env (fresh empty_db)) in
   batch_sizes (log w5) = [2; 2; 2]%nat /\
   db w5 users =
     map (fun n => UserRow (user_email n) SqlNow) [1; 2; 3; 4; 5; 6] /\
   NoDup (map user_email [1; 2; 3; 4; 5; 6])).
Proof.
  intros Hb Hwf Hacc Hf1 Hf2. split.
  - apply stage_ok_rows; assumption.
  - cbv zeta. split; [vm_compute; reflexivity |]. split; [vm_compute; reflexivity |].
    repeat constructor; vm_compute; intuition discriminate.
Qed.

Lemma stage_batches_and_rows_witness :
  safe five_by_two /\
  fst (stage five_by_two 3 users quiet_env (fresh empty_db)) = Ok tt.
Proof.
  split; [exact five_by_two_safe |].
  apply (stage_batches_and_rows quiet_env five_by_two 3 users (fresh empty_db)).
  - exact five_by_two_safe.
  - exact quiet_env_wf.
  - exact quiet_env_accepts.
  - simpl. lia.
  - simpl. lia.
Defined.

(** C1 as stated fails: five users in batches of two are not submitted as
    batches of sizes 2, 2, 1, and do not leave five rows. *)
Lemma five_users_by_two_overshoot :
  batch_sizes (log (snd (insert_users five_by_two 3 quiet_env (fresh empty_db))))
    <> [2; 2; 1]%nat /\
  length (db (snd (insert_users five_by_two 3 quiet_env (fresh empty_db))) users)
    <> 5%nat.
Proof. split; vm_compute; discriminate. Qed.

(** ** A batch size of zero *)

(** With [BATCH_SIZE = 0] the index of the outer loop never moves: whatever
    the budget, a stage with a positive total is still running when the
    budget runs out (the backend accepting every statement, each of them an
    [INSERT] with no tuple). *)
Lemma zero_batch_never_ends (env : Env) (total : Z) (t : table)
    (tuple : Z -> Z -> M row) (fuel0 fuel : nat) (w : World) :
  accepts_all env -> 0 < total ->
  fst (for_loop fuel 0 total 0
         (fun i _ =>
            values <- for_loop fuel0 0 0 1
                        (fun j values => r <- tuple i j ;; ret (values ++ [r]))
                        [] ;;
            pool.query (Insert t values)) tt env w) = OutOfFuel.
Proof.
  intros Hacc Htotal. revert w. induction fuel as [| fuel IH]; intros w.
  - simpl. replace (0 <? total) with true by (symmetry; apply Z.ltb_lt; lia).
    reflexivity.
  - cbn [for_loop].
    replace (0 <? total) with true by (symmetry; apply Z.ltb_lt; lia).
    assert (Hin : for_loop fuel0 0 0 1
               (fun j values => r <- tuple 0 j ;; ret (values ++ [r])) [] env w
            = (Ok (@nil row), w)) by (destruct fuel0; reflexivity).
    unfold bind at 1. unfold bind at 1. rewrite Hin.
    unfold pool.query. rewrite Hacc. cbn [negb].
    change (Js.add 0 0) with 0. apply IH.
Qed.

Corollary zero_batch_stage_never_ends (env : Env) (c : Config) (fuel : nat)
    (t : table) (w : World) :
  accepts_all env -> BATCH_SIZE c = 0 -> 0 < total_of c t ->
  fst (stage c fuel t env w) = OutOfFuel.
Proof.
  intros Hacc Hb Ht. rewrite stage_batches. unfold batches. rewrite Hb.
  apply zero_batch_never_ends; assumption.
Qed.

(** ** The trace of a run *)

Lemma run_trace (env : Env) (c : Config) (fuel : nat) (w : World) :
  safe c ->
  exists qs tail,
    Forall (batch_at env c) qs /\
    StronglySorted Z.le (stage_ranks qs) /\
    accepted_from env (sent w) qs /\
    log (snd (run c fuel env w)) = log w ++ settled_all qs ++ tail /\
    db (snd (run c fuel env w)) = db_exec_all qs (db w) /\
    trace_end env c (sent w) qs (fst (run c fuel env w)) tail.
Proof.
  intros Hb. pose proof (run_spec env c fuel w Hb) as H. unfold run_post in H.
  assert (Hweak : forall qs,
            Forall (fun q => In (into q) all_tables /\ batch_at env c q) qs ->
            Forall (batch_at env c) qs).
  { intros qs Hq. eapply Forall_impl; [| exact Hq]. simpl. intros q [_ Hq']. exact Hq'. }
  destruct (fst (run c fuel env w)) as [[] | x | ].
  - destruct H as (w1 & (qs & tail & Hall & Hsort & Hacc & Hlog & Hdb & _ & -> & _)
                   & Hdb' & Hlog' & _).
    exists qs, [PoolEnded]. rewrite app_nil_r in Hlog.
    split; [auto |]. split; [assumption |]. split; [assumption |].
    split; [rewrite Hlog', Hlog, <- app_assoc; reflexivity |].
    split; [congruence | reflexivity].
  - destruct H as (qs & tail & Hall & Hsort & Hacc & Hlog & Hdb & _ & Hout).
    exists qs, tail.
    split; [auto |]. split; [assumption |]. split; [assumption |].
    split; [assumption |]. split; [assumption |].
    destruct Hout as [[-> _] | (-> & Hrej & q & -> & _ & Hq & Hr)].
    + left. reflexivity.
    + right. split; [reflexivity |]. split; [exact Hrej |]. exists q. auto.
  - destruct H as (qs & tail & Hall & Hsort & Hacc & Hlog & Hdb & _ & -> & _).
    exists qs, []. 
    split; [auto |]. split; [assumption |]. split; [assumption |].
    split; [assumption |]. split; [assumption | reflexivity].
Qed.

Lemma in_settled_all (e : event) (qs : list stmt) :
  In e (settled_all qs) ->
  exists q, In q qs /\ (e = Submitted q \/ e = Settled q true).
Proof.
  unfold settled_all. rewrite in_flat_map. intros (q & Hq & He).
  exists q. split; [assumption |]. simpl in He. intuition auto.
Qed.

(** Every statement a run logs beyond those already in the log is a batch
    of its stage. *)
Lemma run_submitted (env : Env) (c : Config) (fuel : nat) (w : World)
    (q : stmt) :
  safe c ->
  In (Submitted q) (log (snd (run c fuel env w))) ->
  In (Submitted q) (log w) \/ batch_at env c q.
Proof.
  intros Hb Hin.
  destruct (run_trace env c fuel w Hb) as (qs & tail & Hall & _ & _ & Hlog & _ & Hend).
  rewrite Hlog in Hin. apply in_app_or in Hin as [Hin | Hin]; [left; exact Hin |].
  right. apply in_app_or in Hin as [Hin | Hin].
  - apply in_settled_all in Hin as (q' & Hq' & [He | He]); [| discriminate].
    injection He as <-. rewrite Forall_forall in Hall. auto.
  - unfold trace_end in Hend.
    destruct (fst (run c fuel env w)) as [[] | x | ].
    + subst tail. destruct Hin as [Hin | []]. discriminate.
    + destruct Hend as [-> | (_ & _ & q' & -> & Hq' & _)]; [destruct Hin |].
      destruct Hin as [Hin | [Hin | []]]; [| discriminate].
      injection Hin as <-. exact Hq'.
    + subst tail. destruct Hin.
Qed.

(** ** The rows of the users stage *)

Lemma map_seq_from {A} (f : nat -> A) (n m : nat) :
  map f (seq n m) = map (fun k => f (n + k)%nat) (seq 0 m).
Proof.
  revert n. induction m as [| m IH]; intros n; simpl; [reflexivity |].
  rewrite Nat.add_0_r. f_equal.
  rewrite (IH (S n)), <- (seq_shift m 0), map_map.
  apply map_ext. intros k. f_equal. lia.
Qed.

Lemma Z_seq_app (start : Z) (n m : nat) :
  Z_seq start (n + m) = Z_seq start n ++ Z_seq (start + Z.of_nat n) m.
Proof.
  unfold Z_seq. rewrite seq_app, map_app. f_equal. simpl.
  rewrite map_seq_from. apply map_ext. intros k. lia.
Qed.

Lemma users_batch_values (env : Env) (c : Config) (batch i : Z) (q : stmt) :
  0 <= i -> i + batch < Js.MAX_SAFE ->
  batch_of users batch (tuple_is env c users) i q ->
  values q = map user_row (Z_seq (i + 1) (Z.to_nat batch)).
Proof.
  intros Hi Hsafe (_ & Hlen & Hrows). apply nth_error_ext. intros n.
  unfold Z_seq. rewrite !nth_error_map, nth_error_seq.
  destruct (nth_error (values q) n) as [r |] eqn:En.
  - assert (Hn : (n < length (values q))%nat)
      by (apply nth_error_Some; congruence).
    replace (n <? Z.to_nat batch)%nat with true
      by (symmetry; apply Nat.ltb_lt; lia).
    simpl. rewrite (Hrows n r En). unfold user_row.
    rewrite (add_small i (Z.of_nat n)) by lia.
    rewrite add_small by lia. do 3 f_equal. lia.
  - apply nth_error_None in En.
    replace (n <? Z.to_nat batch)%nat with false
      by (symmetry; apply Nat.ltb_ge; lia).
    reflexivity.
Qed.

Lemma batch_seq_app_inv (t : table) (batch : Z) (G : Z -> Z -> row -> Prop)
    (qs : list stmt) (q : stmt) :
  batch_seq t batch G (qs ++ [q]) ->
  batch_seq t batch G qs /\ batch_of t batch G (Z.of_nat (length qs) * batch) q.
Proof.
  intros H. split.
  - intros n q' Hn. apply H. rewrite nth_error_app1; [assumption |].
    apply nth_error_Some. congruence.
  - apply H. rewrite nth_error_app2, Nat.sub_diag by lia. reflexivity.
Qed.

Lemma users_rows (env : Env) (c : Config) (batch : Z) (qs : list stmt) :
  0 <= batch ->
  Z.of_nat (length qs) * batch < Js.MAX_SAFE ->
  batch_seq users batch (tuple_is env c users) qs ->
  concat (map values qs) =
  map user_row (Z_seq 1 (length qs * Z.to_nat batch)).
Proof.
  intros Hb. induction qs as [| q qs IH] using rev_ind; intros Hsafe Hseq.
  - reflexivity.
  - apply batch_seq_app_inv in Hseq as [Hseq Hq].
    rewrite length_app, Nat2Z.inj_add in Hsafe.
    change (Z.of_nat (length [q])) with 1 in Hsafe.
    rewrite map_app, concat_app, (IH ltac:(nia) Hseq). simpl.
    rewrite app_nil_r.
    rewrite (users_batch_values env c batch (Z.of_nat (length qs) * batch) q)
      by (exact Hq || nia).
    rewrite length_app. simpl.
    replace ((length qs + 1) * Z.to_nat batch)%nat
      with (length qs * Z.to_nat batch + Z.to_nat batch)%nat by lia.
    rewrite Z_seq_app, map_app. do 3 f_equal. lia.
Qed.

Lemma ceil_div_lt (a b : Z) : 0 < b -> ceil_div a b * b < a + b.
Proof.
  intros Hb. unfold ceil_div.
  pose proof (Z.div_mod a b ltac:(lia)).
  pose proof (Z.mod_pos_bound a b Hb).
  destruct (a mod b =? 0) eqn:E.
  - apply Z.eqb_eq in E. lia.
  - lia.
Qed.

(** C10. Every statement a run submits carries exactly [BATCH_SIZE] rows,
    the last of a stage included, whatever the environment and however the
    run ends.  Consequently a run that meets no obstacle adds
    [ceil (total / BATCH_SIZE) * BATCH_SIZE] rows to each table; the users
    stage writes the emails user1, user2, ... up to that number, which
    exceeds [TOTAL_USERS] when [BATCH_SIZE] does not divide it. *)
Theorem every_batch_is_full (env : Env) (c : Config) (fuel : nat) (d : Db) :
  safe c ->
  (forall q, In (Submitted q) (log (snd (run c fuel env (fresh d)))) ->
     Z.of_nat (length (values q)) = BATCH_SIZE c) /\
  (wf_env env -> accepts_all env -> enough c fuel ->
   (forall t, 0 <= total_of c t) ->
   (forall t, exists rows,
      db (snd (run c fuel env (fresh d))) t = d t ++ rows /\
      Z.of_nat (length rows) =
      ceil_div (total_of c t) (BATCH_SIZE c) * BATCH_SIZE c) /\
   db (snd (insert_users c fuel env (fresh d))) users =
     d users ++
     map user_row
       (Z_seq 1 (Z.to_nat (ceil_div (TOTAL_USERS c) (BATCH_SIZE c)
                           * BATCH_SIZE c))) /\
   (TOTAL_USERS c mod BATCH_SIZE c <> 0 ->
    TOTAL_USERS c < ceil_div (TOTAL_USERS c) (BATCH_SIZE c) * BATCH_SIZE c)).
Proof.
  intros Hb. split.
  - intros q Hq. apply run_submitted in Hq; [| exact Hb].
    destruct Hq as [[] | (n & _ & Hlen & _)]. exact Hlen.
  - intros Hwf Hacc Hfuel Hpos. split; [| split].
    + intros t. apply (run_ok_rows env c fuel (fresh d) Hb Hwf Hacc Hfuel Hpos t).
    + destruct Hfuel as [Hf1 Hf2].
      destruct (stage_ok env c fuel users (fresh d) Hb Hwf Hacc Hf1)
        as (_ & qs & Hseq & Hlen & _ & Hdb).
      { split; [apply (Hpos users) | apply (Hf2 users)]. }
      cbn [stage] in Hdb. rewrite Hdb, db_exec_all_rows. simpl db. f_equal.
      pose proof (batch_seq_into _ _ _ _ Hseq) as Hall.
      destruct (rows_of_batches users (BATCH_SIZE c) qs Hall) as [-> _].
      pose proof (proj1 Hb) as Hb0. pose proof (proj2 Hb users) as Hs.
      pose proof (ceil_div_lt (total_of c users) (BATCH_SIZE c) Hb0) as Hc.
      rewrite (users_rows env c (BATCH_SIZE c) qs);
        [| lia | rewrite Hlen; lia | exact Hseq].
      do 2 f_equal. simpl total_of in Hlen. rewrite <- Hlen. lia.
    + intros Hne. unfold ceil_div. pose proof (proj1 Hb) as Hb0.
      apply Z.eqb_neq in Hne. rewrite Hne.
      pose proof (Z.div_mod (TOTAL_USERS c) (BATCH_SIZE c) ltac:(lia)).
      pose proof (Z.mod_pos_bound (TOTAL_USERS c) (BATCH_SIZE c) Hb0). lia.
Qed.

Lemma every_batch_is_full_witness :
  safe five_by_two /\
  forall q,
    In (Submitted q) (log (snd (run five_by_two 3 quiet_env (fresh empty_db)))) ->
    Z.of_nat (length (values q)) = BATCH_SIZE five_by_two.
Proof.
  split; [exact five_by_two_safe |].
  apply (every_batch_is_full quiet_env five_by_two 3 empty_db).
  exact five_by_two_safe.
Defined.

(** ** The rows of the other stages *)

(** Every tuple of every statement a run submits is a tuple of the stage the
    statement belongs to. *)
Lemma run_tuple (env : Env) (c : Config) (fuel : nat) (d : Db)
    (q : stmt) (r : row) :
  safe c ->
  In (Submitted q) (log (snd (run c fuel env (fresh d)))) ->
  In r (values q) ->
  exists i j, tuple_is env c (into q) i j r.
Proof.
  intros Hb Hq Hr. apply run_submitted in Hq; [| exact Hb].
  destruct Hq as [[] | (n & _ & _ & Hrows)].
  apply In_nth_error in Hr as [j Hj]. eauto.
Qed.



(** C5. Every tuple of every statement sent to [orderitems], in every run,
    has an [order_id] in [[1, TOTAL_ORDERS]], a [product_id] in
    [[1, TOTAL_PRODUCTS]], a quantity in [[1, 10]] and a price of 0.00 to
    500.00 (in hundredths: 0 to 50000), each computed from its own draw.
    When [BATCH_SIZE] divides [TOTAL_ORDERS * 3], as the constants of the
    script have it, the stage, meeting no obstacle, adds exactly
    [TOTAL_ORDERS * 3] rows. *)
Theorem orderitem_rows_in_range (env : Env) (c : Config) (fuel : nat)
    (d : Db) :
  safe c -> wf_env env ->
  1 <= TOTAL_ORDERS c -> 1 <= TOTAL_PRODUCTS c ->
  (forall q r,
     In (Submitted q) (log (snd (run c fuel env (fresh d)))) ->
     into q = orderitems -> In r (values q) ->
     exists n1 n2 n3 n4,
       r = ItemRow (id_of_draw (random env n1) (TOTAL_ORDERS c))
             (id_of_draw (random env n2) (TOTAL_PRODUCTS c))
             (id_of_draw (random env n3) 10)
             (price_of_draw (random env n4)) /\
       1 <= id_of_draw (random env n1) (TOTAL_ORDERS c) <= TOTAL_ORDERS c /\
       1 <= id_of_draw (random env n2) (TOTAL_PRODUCTS c)
         <= TOTAL_PRODUCTS c /\
       1 <= id_of_draw (random env n3) 10 <= 10 /\
       0 <= price_of_draw (random env n4) <= 50000) /\
  (accepts_all env -> BATCH_SIZE c <= Z.of_nat fuel ->
   TOTAL_ORDERS c * 3 <= Z.of_nat fuel * BATCH_SIZE c ->
   (TOTAL_ORDERS c * 3) mod BATCH_SIZE c = 0 ->
   forall w,
     fst (insert_orderitems c fuel env w) = Ok tt /\
     exists rows,
       db (snd (insert_orderitems c fuel env w)) orderitems =
         db w orderitems ++ rows /\
       Z.of_nat (length rows) = TOTAL_ORDERS c * 3).
Proof.
  intros Hb Hwf Ho Hp. split.
  - intros q r Hq Hinto Hr.
    destruct (run_tuple env c fuel d q r Hb Hq Hr) as (i & j & Ht).
    rewrite Hinto in Ht. destruct Ht as (n1 & n2 & n3 & n4 & ->).
    destruct Hwf as (Hrand & _).
    exists n1, n2, n3, n4. split; [reflexivity |].
    pose proof (proj1 Hb) as Hb0.
    pose proof (proj2 Hb orders) as Hso. pose proof (proj2 Hb products) as Hsp.
    simpl in Hso, Hsp.
    split; [apply random_id_range; [apply Hrand | lia] |].
    split; [apply random_id_range; [apply Hrand | lia] |].
    split.
    + apply random_id_range; [apply Hrand |].
      split; [lia | reflexivity].
    + apply random_price_range, Hrand.
  - intros Hacc Hf1 Hf2 Hdiv w.
    assert (Hitems : total_of c orderitems = TOTAL_ORDERS c * 3).
    { pose proof (proj1 Hb) as Hb0. pose proof (proj2 Hb orderitems) as Hsi.
      simpl. unfold Js.mul. apply round53_safe; [lia |].
      simpl in Hsi. unfold Js.mul in Hsi. lia. }
    destruct (stage_ok_rows env c fuel orderitems w Hb Hwf Hacc Hf1)
      as (Hok & qs & _ & _ & _ & Hdb & Hrows).
    { rewrite Hitems. lia. }
    split; [exact Hok |].
    exists (concat (map values qs)). split; [exact Hdb |].
    rewrite <- Hitems. apply Hrows. rewrite Hitems. exact Hdiv.
Qed.

Lemma orderitem_rows_in_range_witness :
  safe script_config /\
  (TOTAL_ORDERS script_config * 3) mod BATCH_SIZE script_config = 0 /\
  forall w,
    fst (insert_orderitems script_config (Z.to_nat 7500) quiet_env w) = Ok tt /\
    exists rows,
      db (snd (insert_orderitems script_config (Z.to_nat 7500) quiet_env w))
        orderitems = db w orderitems ++ rows /\
      Z.of_nat (length rows) = TOTAL_ORDERS script_config * 3.
Proof.
  assert (Hdiv : (TOTAL_ORDERS script_config * 3) mod BATCH_SIZE script_config = 0)
    by reflexivity.
  assert (Ho : 1 <= TOTAL_ORDERS script_config) by discriminate.
  assert (Hp : 1 <= TOTAL_PRODUCTS script_config) by discriminate.
  split; [exact script_config_safe |]. split; [exact Hdiv |].
  refine (proj2 (orderitem_rows_in_range quiet_env script_config (Z.to_nat 7500)
                   empty_db script_config_safe quiet_env_wf Ho Hp)
            quiet_env_accepts _ _ Hdiv).
  - rewrite Z2Nat.id by discriminate. discriminate.
  - rewrite Z2Nat.id by discriminate. discriminate.
Defined.

(** ** The users stage and the clock *)

(** What every iteration keeps, the loop keeps, however it ends. *)
Lemma for_loop_keeps {S} (env : Env) (P : World -> Prop) (bound step : Z)
    (body : Z -> S -> M S) :
  (forall i s w, P w -> P (snd (body i s env w))) ->
  forall fuel i s w,
    P w -> P (snd (for_loop fuel i bound step body s env w)).
Proof.
  intros Hbody fuel. induction fuel as [| fuel IH]; intros i s w Hw; simpl.
  - destruct (i <? bound); exact Hw.
  - destruct (i <? bound); [| exact Hw]. unfold bind.
    specialize (Hbody i s w Hw).
    destruct (body i s env w) as [[s' | x | ] w']; simpl in Hbody.
    + apply IH. exact Hbody.
    + exact Hbody.
    + exact Hbody.
Qed.

Lemma batches_keeps (env : Env) (fuel : nat) (total batch : Z) (t : table)
    (tuple : Z -> Z -> M row) (P : World -> Prop) :
  (forall i j w, P w -> P (snd (tuple i j env w))) ->
  (forall q w, P w -> P (snd (pool.query q env w))) ->
  forall w, P w -> P (snd (batches fuel total batch t tuple env w)).
Proof.
  intros Htuple Hquery w Hw. unfold batches.
  apply for_loop_keeps; [| exact Hw].
  clear w Hw. intros i [] w Hw. unfold bind.
  assert (Hin : P (snd (for_loop fuel 0 batch 1
                          (fun j values => r <- tuple i j ;; ret (values ++ [r]))
                          [] env w))).
  { apply for_loop_keeps; [| exact Hw].
    clear w Hw. intros j vs w Hw. unfold bind.
    specialize (Htuple i j w Hw).
    destruct (tuple i j env w) as [[r | x | ] w']; exact Htuple. }
  destruct (for_loop fuel 0 batch 1 _ [] env w) as [[vs | x | ] w'];
    simpl in Hin; [| exact Hin | exact Hin].
  apply Hquery. exact Hin.
Qed.

(** C3, as the code has it.  Every tuple of every statement sent to
    [users], in every run, carries the SQL expression [NOW()] as its
    creation timestamp, which the backend evaluates when it inserts the
    row; the users stage makes no draw and reads no clock. *)
Theorem user_rows_created_now (env : Env) (c : Config) (fuel : nat) (d : Db) :
  safe c ->
  (forall q r,
     In (Submitted q) (log (snd (run c fuel env (fresh d)))) ->
     into q = users -> In r (values q) ->
     exists n, r = UserRow (user_email n) SqlNow) /\
  (forall w,
     draws (snd (insert_users c fuel env w)) = draws w /\
     ticks (snd (insert_users c fuel env w)) = ticks w).
Proof.
  intros Hb. split.
  - intros q r Hq Hinto Hr.
    destruct (run_tuple env c fuel d q r Hb Hq Hr) as (i & j & Ht).
    rewrite Hinto in Ht. exists (Js.add (Js.add i j) 1). exact Ht.
  - intros w. unfold insert_users.
    apply (batches_keeps env fuel _ _ users user_tuple
             (fun w' => draws w' = draws w /\ ticks w' = ticks w)).
    + intros i j w' Hw'. exact Hw'.
    + intros q w' Hw'. exact Hw'.
    + split; reflexivity.
Qed.

Lemma user_rows_created_now_witness :
  safe five_by_two /\
  forall w,
    draws (snd (insert_users five_by_two 3 quiet_env w)) = draws w /\
    ticks (snd (insert_users five_by_two 3 quiet_env w)) = ticks w.
Proof.
  split; [exact five_by_two_safe |].
  apply (user_rows_created_now quiet_env five_by_two 3 empty_db).
  exact five_by_two_safe.
Defined.

(** C3 as stated fails: the first user tuple of a run has no sampled
    timestamp at all. *)
Lemma user_created_at_not_sampled :
  ~ (forall q email created_at,
       In (Submitted q)
          (log (snd (insert_users five_by_two 3 quiet_env (fresh empty_db)))) ->
       In (UserRow email created_at) (values q) ->
       exists ms,
         created_at = SqlTimestamp ms /\
         start_2023 quiet_env <= ms <= clock quiet_env 0).
Proof.
  intros H.
  destruct (H (Insert users [user_row 1; user_row 2]) (user_email 1) SqlNow)
    as (ms & Hms & _).
  - vm_compute. left. reflexivity.
  - left. reflexivity.
  - discriminate.
Qed.

(** ** Order and overlap *)










(** ** Failure and teardown *)

Lemma not_in_settled_all (qs : list stmt) (e : event) :
  (forall q, e <> Submitted q) -> (forall q, e <> Settled q true) ->
  ~ In e (settled_all qs).
Proof.
  intros H1 H2 Hin. apply in_settled_all in Hin as (q & _ & [He | He]).
  - exact (H1 q He).
  - exact (H2 q He).
Qed.

Lemma split_after (A : Type) (a b l1 l2 : list A) (x : A) :
  l1 ++ x :: l2 = a ++ b -> ~ In x a ->
  exists b1, b = b1 ++ x :: l2 /\ l1 = a ++ b1.
Proof.
  revert l1. induction a as [| y a IH]; intros l1 Heq Hx; simpl in *.
  - exists l1. auto.
  - destruct l1 as [| z l1]; simpl in Heq.
    + injection Heq as -> _. exfalso. apply Hx. left. reflexivity.
    + injection Heq as -> Heq. destruct (IH l1 Heq) as (b1 & Hb & Hl).
      * intros Hin. apply Hx. right. exact Hin.
      * exists b1. split; [exact Hb | congruence].
Qed.

(** C7. In every run, a statement the backend rejects is the last thing
    that happens: nothing is submitted after it (no later batch of the
    stage, no later stage, no second attempt), the pool is not ended, the
    run ends by throwing the query error, and the database holds the rows
    of the statements accepted before it and nothing of the rejected
    one. *)
Theorem rejected_batch_ends_run (env : Env) (c : Config) (fuel : nat)
    (d : Db) (l1 l2 : list event) (q : stmt) :
  safe c ->
  log (snd (run c fuel env (fresh d))) = l1 ++ Settled q false :: l2 ->
  l2 = [] /\
  fst (run c fuel env (fresh d)) = Threw QueryError /\
  exists qs,
    l1 = settled_all qs ++ [Submitted q] /\
    rejects env (length qs) = true /\
    db (snd (run c fuel env (fresh d))) = db_exec_all qs d.
Proof.
  intros Hb Hlog.
  destruct (run_trace env c fuel (fresh d) Hb)
    as (qs & tail & _ & _ & _ & Hlog' & Hdb & Hend).
  simpl in Hlog', Hdb, Hend. rewrite Hlog' in Hlog. symmetry in Hlog.
  destruct (split_after _ (settled_all qs) tail l1 l2 (Settled q false) Hlog)
    as (b1 & Htail & Hl1).
  { apply not_in_settled_all; intros q'; discriminate. }
  unfold trace_end in Hend.
  destruct (fst (run c fuel env (fresh d))) as [[] | x | ].
  - subst tail. destruct b1 as [| e [| e' b1]]; discriminate.
  - destruct Hend as [-> | (-> & Hrej & q' & -> & _)].
    + destruct b1; discriminate.
    + destruct b1 as [| e [| e' b1]]; [discriminate | | ].
      * injection Htail as He Hq Hl2. subst e q' l2.
        split; [reflexivity |]. split; [reflexivity |].
        exists qs. split; [exact Hl1 |]. split; [exact Hrej | exact Hdb].
      * destruct b1; discriminate.
  - subst tail. destruct b1; discriminate.
Qed.

Lemma rejected_batch_ends_run_witness :
  log (snd (run five_by_two 3 (failing_env 1) (fresh empty_db))) =
    [Submitted (Insert users [user_row 1; user_row 2]);
     Settled (Insert users [user_row 1; user_row 2]) true;
     Submitted (Insert users [user_row 3; user_row 4])] ++
    Settled (Insert users [user_row 3; user_row 4]) false :: [] /\
  fst (run five_by_two 3 (failing_env 1) (fresh empty_db)) = Threw QueryError.
Proof.
  assert (Hlog :
    log (snd (run five_by_two 3 (failing_env 1) (fresh empty_db))) =
      [Submitted (Insert users [user_row 1; user_row 2]);
       Settled (Insert users [user_row 1; user_row 2]) true;
       Submitted (Insert users [user_row 3; user_row 4])] ++
      Settled (Insert users [user_row 3; user_row 4]) false :: []).
  { vm_compute. reflexivity. }
  split; [exact Hlog |].
  apply (rejected_batch_ends_run (failing_env 1) five_by_two 3 empty_db _ _ _
           five_by_two_safe Hlog).
Defined.

(** C8, as the code has it.  A run that ends well ends the pool exactly
    once, as the last thing it does; a run that does not end well (a
    rejected statement, an invalid date, or a loop still running) does not
    end the pool at all. *)
Theorem pool_ended_only_on_success (env : Env) (c : Config) (fuel : nat)
    (d : Db) :
  safe c ->
  (fst (run c fuel env (fresh d)) = Ok tt ->
   exists l,
     log (snd (run c fuel env (fresh d))) = l ++ [PoolEnded] /\
     ~ In PoolEnded l) /\
  (fst (run c fuel env (fresh d)) <> Ok tt ->
   ~ In PoolEnded (log (snd (run c fuel env (fresh d))))).
Proof.
  intros Hb.
  destruct (run_trace env c fuel (fresh d) Hb)
    as (qs & tail & _ & _ & _ & Hlog & _ & Hend).
  simpl in Hlog. rewrite Hlog.
  assert (Hno : ~ In PoolEnded (settled_all qs))
    by (apply not_in_settled_all; intros q; discriminate).
  split.
  - intros Hok. rewrite Hok in Hend. simpl in Hend. subst tail.
    exists (settled_all qs). split; [reflexivity | exact Hno].
  - intros Hne Hin. apply in_app_or in Hin as [Hin | Hin]; [exact (Hno Hin) |].
    destruct (fst (run c fuel env (fresh d))) as [[] | x | ]; simpl in Hend.
    + apply Hne. reflexivity.
    + destruct Hend as [-> | (_ & _ & q & -> & _)]; [destruct Hin |].
      destruct Hin as [Hin | [Hin | []]]; discriminate.
    + subst tail. destruct Hin.
Qed.

Lemma pool_ended_only_on_success_witness :
  safe five_by_two /\
  ~ In PoolEnded (log (snd (run five_by_two 3 (failing_env 1) (fresh empty_db)))).
Proof.
  split; [exact five_by_two_safe |].
  apply (pool_ended_only_on_success (failing_env 1) five_by_two 3 empty_db).
  - exact five_by_two_safe.
  - vm_compute. discriminate.
Defined.

(** C8 as stated fails: when the backend rejects the second statement, the
    run throws and the pool is never ended. *)
Lemma failed_run_leaves_pool_open :
  fst (run five_by_two 3 (failing_env 1) (fresh empty_db)) = Threw QueryError /\
  ~ In PoolEnded (log (snd (run five_by_two 3 (failing_env 1) (fresh empty_db)))).
Proof.
  split; [vm_compute; reflexivity |].
  vm_compute. intros [H | [H | [H | [H | []]]]]; discriminate.
Qed.

(** ** Running twice *)

Lemma ceil_div_exact (a b : Z) :
  0 < b -> a mod b = 0 -> ceil_div a b * b = a.
Proof.
  intros Hb Hm. unfold ceil_div. rewrite Hm. simpl.
  pose proof (Z.div_mod a b ltac:(lia)). lia.
Qed.

(** C9. A second complete run, started on the database the first one left,
    appends its rows after those of the first: with totals that are
    multiples of the batch size, as the constants of the script are, each
    table then holds what it held before, then the configured number of
    rows of the first run, then as many of the second; nothing is
    overwritten. *)
Theorem second_run_appends (env1 env2 : Env) (c : Config) (fuel : nat)
    (d : Db) :
  safe c ->
  wf_env env1 -> accepts_all env1 -> wf_env env2 -> accepts_all env2 ->
  enough c fuel ->
  (forall t, 0 <= total_of c t) ->
  (forall t, total_of c t mod BATCH_SIZE c = 0) ->
  fst (run c fuel env1 (fresh d)) = Ok tt /\
  fst (run c fuel env2 (fresh (db (snd (run c fuel env1 (fresh d)))))) = Ok tt /\
  forall t, exists rows1 rows2,
    db (snd (run c fuel env1 (fresh d))) t = d t ++ rows1 /\
    db (snd (run c fuel env2 (fresh (db (snd (run c fuel env1 (fresh d))))))) t
      = d t ++ rows1 ++ rows2 /\
    Z.of_nat (length rows1) = total_of c t /\
    Z.of_nat (length rows2) = total_of c t /\
    Z.of_nat
      (length
         (db (snd (run c fuel env2
                     (fresh (db (snd (run c fuel env1 (fresh d))))))) t))
      = Z.of_nat (length (d t)) + 2 * total_of c t.
Proof.
  intros Hb Hwf1 Hacc1 Hwf2 Hacc2 Hfuel Hpos Hdiv.
  set (w1 := snd (run c fuel env1 (fresh d))).
  split; [apply (run_ok env1 c fuel (fresh d) Hb Hwf1 Hacc1 Hfuel) |].
  split; [apply (run_ok env2 c fuel (fresh (db w1)) Hb Hwf2 Hacc2 Hfuel) |].
  intros t.
  destruct (run_ok_rows env1 c fuel (fresh d) Hb Hwf1 Hacc1 Hfuel Hpos t)
    as (rows1 & Hdb1 & Hlen1).
  destruct (run_ok_rows env2 c fuel (fresh (db w1)) Hb Hwf2 Hacc2 Hfuel Hpos t)
    as (rows2 & Hdb2 & Hlen2).
  fold w1 in Hdb1.
  change (db (fresh d) t) with (d t) in Hdb1.
  change (db (fresh (db w1)) t) with (db w1 t) in Hdb2.
  rewrite ceil_div_exact in Hlen1, Hlen2 by (apply Hb || apply Hdiv).
  exists rows1, rows2.
  split; [exact Hdb1 |].
  split; [rewrite Hdb2, Hdb1, <- app_assoc; reflexivity |].
  split; [exact Hlen1 |]. split; [exact Hlen2 |].
  rewrite Hdb2, Hdb1, !length_app, !Nat2Z.inj_add. lia.
Qed.

Lemma second_run_appends_witness :
  enough script_config (Z.to_nat 7500) /\
  (forall t, total_of script_config t mod BATCH_SIZE script_config = 0) /\
  fst (run script_config (Z.to_nat 7500) quiet_env (fresh empty_db)) = Ok tt.
Proof.
  assert (He : enough script_config (Z.to_nat 7500)).
  { apply script_config_enough. rewrite Z2Nat.id; lia. }
  assert (Hdiv : forall t,
            total_of script_config t mod BATCH_SIZE script_config = 0).
  { intros t. rewrite script_totals. destruct t; reflexivity. }
  assert (Hpos : forall t, 0 <= total_of script_config t).
  { intros t. rewrite script_totals. destruct t; discriminate. }
  split; [exact He |]. split; [exact Hdiv |].
  exact (proj1 (second_run_appends quiet_env quiet_env script_config
                  (Z.to_nat 7500) empty_db script_config_safe quiet_env_wf
                  quiet_env_accepts quiet_env_wf quiet_env_accepts He Hpos
                  Hdiv)).
Defined.

(** ** Errors and empty runs *)

Lemma failing_env_wf (k : nat) : wf_env (failing_env k).
Proof. exact quiet_env_wf. Qed.

(** X1. The only error a run can end with is the query error of the backend:
    with draws in [[0, 1)] and a clock that reads a valid time not before
    the start date, [toISOString] is never called on an invalid date. *)
Theorem run_throws_only_query_error (env : Env) (c : Config) (fuel : nat)
    (w : World) (x : error) :
  safe c -> wf_env env ->
  fst (run c fuel env w) = Threw x -> x = QueryError.
Proof.
  intros Hb Hwf Hr.
  pose proof (run_spec env c fuel w Hb) as H. unfold run_post in H.
  rewrite Hr in H.
  destruct H as (qs & tail & _ & _ & _ & _ & _ & _ & Hout).
  destruct Hout as [[_ (t & _ & Hx)] | (Hx & _)].
  - exfalso. exact (no_throw env t x Hwf Hx).
  - exact Hx.
Qed.

Lemma run_throws_only_query_error_witness :
  fst (run five_by_two 3 (failing_env 1) (fresh empty_db)) = Threw QueryError /\
  QueryError = QueryError.
Proof.
  assert (H : fst (run five_by_two 3 (failing_env 1) (fresh empty_db))
              = Threw QueryError) by (vm_compute; reflexivity).
  split; [exact H |].
  exact (run_throws_only_query_error (failing_env 1) five_by_two 3
           (fresh empty_db) QueryError five_by_two_safe (failing_env_wf 1) H).
Defined.

(** A loop whose test fails at once does nothing. *)
Lemma for_loop_done {S} (fuel : nat) (i bound step : Z)
    (body : Z -> S -> M S) (s : S) (env : Env) (w : World) :
  bound <= i -> for_loop fuel i bound step body s env w = (Ok s, w).
Proof.
  intros H. destruct fuel; simpl;
    (replace (i <? bound) with false by (symmetry; apply Z.ltb_ge; exact H));
    reflexivity.
Qed.

Lemma round53_pos_nonneg (z : Z) : 0 <= z -> 0 <= Js.round53_pos z.
Proof.
  intros Hz. destruct (Z.lt_ge_cases z (2 ^ 53)) as [Hs | Hb].
  - unfold Js.round53_pos. apply Z.ltb_lt in Hs. rewrite Hs. exact Hz.
  - destruct (round53_pos_cases z Hb)
      as (k & q & r & Hk & [Hlo Hhi] & Hqr & Hr & Hcase).
    assert (HK : 0 < 2 ^ k) by (apply Z.pow_pos_nonneg; lia).
    assert (Hq : 0 <= q) by nia.
    destruct Hcase as [[-> _] | [-> _]]; nia.
Qed.

Lemma round53_nonpos (z : Z) : z <= 0 -> Js.round53 z <= 0.
Proof.
  intros Hz. unfold Js.round53.
  pose proof (round53_pos_nonneg (Z.abs z) (Z.abs_nonneg z)).
  destruct (Z.eq_dec z 0) as [-> | Hne]; [simpl; lia |].
  rewrite Z.sgn_neg by lia. lia.
Qed.

(** X2. With no total above zero, whatever the batch size, the budget and
    the environment, a run submits nothing: it ends the pool and ends well,
    leaving the tables, the draws and the clock as they were. *)
Theorem run_with_nothing_to_do (env : Env) (c : Config) (fuel : nat)
    (w : World) :
  TOTAL_USERS c <= 0 -> TOTAL_PRODUCTS c <= 0 -> TOTAL_ORDERS c <= 0 ->
  run c fuel env w =
  (Ok tt,
   {| db := db w; log := log w ++ [PoolEnded]; draws := draws w;
      ticks := ticks w; sent := sent w |}).
Proof.
  intros Hu Hp Ho.
  assert (Hi : Js.mul (TOTAL_ORDERS c) 3 <= 0)
    by (unfold Js.mul; apply round53_nonpos; lia).
  unfold run, insert_users, insert_products, insert_orders, insert_orderitems,
    batches, bind.
  rewrite !for_loop_done by assumption. reflexivity.
Qed.

Lemma run_with_nothing_to_do_witness :
  fst (run nothing_to_do 0 (failing_env 0) (fresh empty_db)) = Ok tt /\
  log (snd (run nothing_to_do 0 (failing_env 0) (fresh empty_db))) = [PoolEnded].
Proof.
  rewrite (run_with_nothing_to_do (failing_env 0) nothing_to_do 0
             (fresh empty_db)) by (simpl; lia).
  split; reflexivity.
Defined.

(** ** Whole batches, rejections and the number of statements *)

Lemma accepted_into_app (t : table) (l1 l2 : list event) :
  accepted_into t (l1 ++ l2) = (accepted_into t l1 + accepted_into t l2)%nat.
Proof. unfold accepted_into. rewrite filter_app, length_app. reflexivity. Qed.

Lemma accepted_into_settled (t : table) (qs : list stmt) :
  accepted_into t (settled_all qs) = length (of_table t qs).
Proof.
  unfold accepted_into, of_table. induction qs as [| q qs IH]; [reflexivity |].
  cbn [settled_all flat_map settled_ok app filter].
  fold (settled_all qs).
  destruct (table_eqb (into q) t); cbn [length]; rewrite IH; reflexivity.
Qed.

Lemma accepted_into_tail (env : Env) (c : Config) (k : nat) (t : table)
    (qs : list stmt) (r : result unit) (tail : list event) :
  trace_end env c k qs r tail -> accepted_into t tail = 0%nat.
Proof.
  destruct r as [[] | x | ]; simpl.
  - intros ->. reflexivity.
  - intros [-> | (_ & _ & q & -> & _)]; reflexivity.
  - intros ->. reflexivity.
Qed.

(** X3. However a run ends, every table grows by whole batches: after the
    rows it had, it holds [BATCH_SIZE] rows for each accepted statement and
    nothing else; a rejected statement leaves no row. *)
Theorem tables_grow_by_whole_batches (env : Env) (c : Config) (fuel : nat)
    (d : Db) (t : table) :
  safe c ->
  exists rows,
    db (snd (run c fuel env (fresh d))) t = d t ++ rows /\
    Z.of_nat (length rows) =
    Z.of_nat (accepted_into t (log (snd (run c fuel env (fresh d)))))
    * BATCH_SIZE c.
Proof.
  intros Hb.
  destruct (run_trace env c fuel (fresh d) Hb)
    as (qs & tail & Hall & _ & _ & Hlog & Hdb & Hend).
  simpl in Hlog, Hdb. exists (inserted t qs). split.
  - rewrite Hdb. apply db_exec_all_rows.
  - rewrite Hlog, accepted_into_app, accepted_into_settled,
      (accepted_into_tail env c _ t qs _ tail Hend), Nat.add_0_r.
    apply (inserted_length env c). exact Hall.
Qed.

Lemma tables_grow_by_whole_batches_witness :
  safe five_by_two /\
  exists rows,
    db (snd (run five_by_two 3 (failing_env 1) (fresh empty_db))) users
      = empty_db users ++ rows /\
    Z.of_nat (length rows) =
    Z.of_nat (accepted_into users
                (log (snd (run five_by_two 3 (failing_env 1) (fresh empty_db)))))
    * BATCH_SIZE five_by_two.
Proof.
  split; [exact five_by_two_safe |].
  exact (tables_grow_by_whole_batches (failing_env 1) five_by_two 3 empty_db
           users five_by_two_safe).
Defined.

Lemma of_table_above (t : table) (qs : list stmt) (n : Z) :
  Forall (fun m => m <= n) (stage_ranks qs) -> n < rank t ->
  of_table t qs = [].
Proof.
  intros Hr Hn. apply of_table_other. apply Forall_forall. intros q Hq Heq.
  rewrite Forall_forall in Hr. specialize (Hr (rank (into q))).
  rewrite Heq in Hr. assert (rank t <= n); [| lia].
  apply Hr. unfold stage_ranks. apply in_map_iff. exists q.
  rewrite Heq. auto.
Qed.

(** X4. When the backend rejects a statement, the tables of the later stages
    are as they were before the run: nothing of a later stage is inserted
    once an earlier one has failed. *)
Theorem rejection_leaves_later_tables (env : Env) (c : Config) (fuel : nat)
    (d : Db) (q : stmt) (t : table) :
  safe c ->
  In (Settled q false) (log (snd (run c fuel env (fresh d)))) ->
  rank (into q) < rank t ->
  db (snd (run c fuel env (fresh d))) t = d t.
Proof.
  intros Hb Hin Hrank.
  destruct (run_trace env c fuel (fresh d) Hb)
    as (qs & tail & _ & _ & _ & Hlog & Hdb & Hend).
  simpl in Hlog, Hdb. rewrite Hlog in Hin. rewrite Hdb, db_exec_all_rows.
  apply in_app_or in Hin as [Hin | Hin].
  { exfalso. revert Hin. apply not_in_settled_all; intros q'; discriminate. }
  unfold trace_end in Hend.
  destruct (fst (run c fuel env (fresh d))) as [[] | x | ].
  - subst tail. destruct Hin as [Hin | []]. discriminate.
  - destruct Hend as [-> | (_ & _ & q' & -> & _ & Hr)]; [destruct Hin |].
    destruct Hin as [Hin | [Hin | []]]; [discriminate |].
    injection Hin as ->.
    unfold inserted. rewrite (of_table_above t qs (rank (into q))) by assumption.
    apply app_nil_r.
  - subst tail. destruct Hin.
Qed.

Lemma rejection_leaves_later_tables_witness :
  In (Settled (Insert users [user_row 3; user_row 4]) false)
     (log (snd (run five_by_two 3 (failing_env 1) (fresh empty_db)))) /\
  db (snd (run five_by_two 3 (failing_env 1) (fresh empty_db))) orders
    = empty_db orders.
Proof.
  assert (Hin : In (Settled (Insert users [user_row 3; user_row 4]) false)
     (log (snd (run five_by_two 3 (failing_env 1) (fresh empty_db))))).
  { vm_compute. do 3 right. left. reflexivity. }
  split; [exact Hin |].
  apply (rejection_leaves_later_tables (failing_env 1) five_by_two 3 empty_db
           (Insert users [user_row 3; user_row 4]) orders five_by_two_safe Hin).
  reflexivity.
Defined.

Lemma length_by_table (qs : list stmt) :
  length qs =
  (length (of_table users qs) + length (of_table products qs) +
   length (of_table orders qs) + length (of_table orderitems qs))%nat.
Proof.
  unfold of_table. induction qs as [| q qs IH]; [reflexivity |].
  cbn [filter length]. destruct (into q); cbn [table_eqb length]; lia.
Qed.

(** X5. A run that meets no obstacle sends one statement per batch of each
    stage and no other: [ceil (total / BATCH_SIZE)] for users, products,
    orders and order items, added up (10110 with the constants of the
    script). *)
Theorem statements_sent_by_run (env : Env) (c : Config) (fuel : nat)
    (w : World) :
  safe c -> wf_env env -> accepts_all env -> enough c fuel ->
  (forall t, 0 <= total_of c t) ->
  Z.of_nat (sent (snd (run c fuel env w))) =
  Z.of_nat (sent w) + statements_of c.
Proof.
  intros Hb Hwf Hacc Hfuel Hpos.
  destruct (run_ok env c fuel w Hb Hwf Hacc Hfuel)
    as (_ & w1 & (qs & tail & _ & _ & _ & _ & _ & Hsent & -> & Hfull) & _ & _ & Hs).
  rewrite Hs, Hsent. simpl length. rewrite Nat.add_0_r, Nat2Z.inj_add.
  f_equal. rewrite (length_by_table qs), !Nat2Z.inj_add. unfold statements_of.
  rewrite !(full_ceil _ _ _ (proj1 Hb) (Hpos _) (Hfull _ (in_all_tables _))).
  reflexivity.
Qed.

Lemma statements_sent_by_run_witness :
  statements_of script_config = 10110 /\
  Z.of_nat (sent (snd (run script_config (Z.to_nat 7500) quiet_env
                         (fresh empty_db)))) =
  Z.of_nat (sent (fresh empty_db)) + statements_of script_config.
Proof.
  split; [reflexivity |].
  assert (He : enough script_config (Z.to_nat 7500)).
  { apply script_config_enough. rewrite Z2Nat.id; lia. }
  assert (Hpos : forall t, 0 <= total_of script_config t).
  { intros t. rewrite script_totals. destruct t; discriminate. }
  exact (statements_sent_by_run quiet_env script_config (Z.to_nat 7500)
           (fresh empty_db) script_config_safe quiet_env_wf quiet_env_accepts
           He Hpos).
Defined.

(** ** Rows as functions of the draws *)

Lemma bump_bump (a b a' b' : nat) (w : World) :
  bump a b (bump a' b' w) = bump (a + a') (b + b') w.
Proof. unfold bump. cbn [db log draws ticks sent]. f_equal; lia. Qed.

Lemma bump_0 (w : World) : bump 0 0 w = w.
Proof. destruct w. reflexivity. Qed.

Lemma full_rows (total batch : Z) (n : nat) :
  0 < batch -> full total batch n ->
  (n * Z.to_nat batch)%nat = Z.to_nat (ceil_div total batch * batch).
Proof.
  intros Hb Hf. destruct (Z_le_gt_dec 0 total) as [Hpos | Hneg].
  - rewrite <- (full_ceil total batch n Hb Hpos Hf). lia.
  - assert (n = 0%nat) as ->.
    { destruct Hf as [_ [-> | Hlt]]; [reflexivity |].
      destruct n; [reflexivity | nia]. }
    pose proof (ceil_div_lt total batch Hb) as Hc.
    assert (Hz : ceil_div total batch * batch <= 0).
    { destruct (Z_le_gt_dec (ceil_div total batch) 0); nia. }
    cbn [Nat.mul]. lia.
Qed.

Lemma full_exists (total batch : Z) :
  0 < batch -> exists n, full total batch n.
Proof.
  intros Hb. exists (Z.to_nat (ceil_div total batch)).
  assert (Hq : total <= ceil_div total batch * batch /\
               (ceil_div total batch - 1) * batch < total).
  { unfold ceil_div.
    pose proof (Z.div_mod total batch ltac:(lia)) as Hdm.
    pose proof (Z.mod_pos_bound total batch Hb) as Hm.
    destruct (Z.eqb_spec (total mod batch) 0); nia. }
  unfold full. destruct (Z_le_gt_dec (ceil_div total batch) 0).
  - replace (Z.to_nat (ceil_div total batch)) with 0%nat by lia.
    split; [nia | left; reflexivity].
  - rewrite Z2Nat.id by lia. split; [lia | right; lia].
Qed.

Lemma listed_values (t : table) (h : nat -> row) (B : nat) :
  forall len m,
    concat (map values (listed t h B m len)) = map h (seq (m * B) (len * B)).
Proof.
  induction len as [| len IH]; intros m; [reflexivity |].
  unfold listed in *. cbn [seq map concat values Nat.mul].
  rewrite IH, seq_app, map_app. do 3 f_equal. cbn [Nat.mul]. lia.
Qed.

Lemma listed_into (t : table) (h : nat -> row) (B m len : nat) :
  Forall (fun q => into q = t) (listed t h B m len).
Proof.
  unfold listed. apply Forall_forall. intros q Hq.
  apply in_map_iff in Hq as (m' & <- & _). reflexivity.
Qed.

Lemma listed_snoc (t : table) (h : nat -> row) (B m len : nat) :
  listed t h B m (S len) =
  Insert t (map h (seq (m * B) B)) :: listed t h B (S m) len.
Proof. reflexivity. Qed.

Lemma db_exec_all_cons (q : stmt) (qs : list stmt) (d : Db) :
  db_exec_all (q :: qs) d = db_exec_all qs (db_exec q d).
Proof. reflexivity. Qed.

Section Listing.

Variables (env : Env) (t : table) (tuple : Z -> Z -> M row).
Variables (a b d0 t0 : nat) (h : nat -> row) (total batch : Z).

Hypothesis batch_pos : 0 < batch.
Hypothesis total_safe : total + batch < Js.MAX_SAFE.
Hypothesis accepts : accepts_all env.
Hypothesis tuple_at :
  forall (k : nat) i j w,
    0 <= i -> 0 <= j -> i + j = Z.of_nat k ->
    Z.of_nat k < total + batch ->
    draws w = (d0 + a * k)%nat -> ticks w = (t0 + b * k)%nat ->
    tuple i j env w = (Ok (h k), bump a b w).

Lemma values_listing (i : nat) :
  Z.of_nat i < total ->
  forall fuel (j : nat) vs w,
    (j <= (Z.to_nat batch))%nat -> ((Z.to_nat batch) - j <= fuel)%nat ->
    draws w = (d0 + a * (i + j))%nat -> ticks w = (t0 + b * (i + j))%nat ->
    for_loop fuel (Z.of_nat j) batch 1
      (fun j values => r <- tuple (Z.of_nat i) j ;; ret (values ++ [r]))
      vs env w
    = (Ok (vs ++ map h (seq (i + j) ((Z.to_nat batch) - j))),
       bump (a * ((Z.to_nat batch) - j)) (b * ((Z.to_nat batch) - j)) w).
Proof.
  intros Hi. induction fuel as [| fuel IH]; intros j vs w Hj Hf Hd Ht.
  - assert (j = (Z.to_nat batch)) by lia. subst j.
    unfold for_loop. replace (Z.of_nat (Z.to_nat batch) <? batch) with false
      by (symmetry; apply Z.ltb_ge; lia).
    rewrite Nat.sub_diag, !Nat.mul_0_r, bump_0. cbn [seq map].
    rewrite app_nil_r. reflexivity.
  - cbn [for_loop]. destruct (Z.ltb_spec (Z.of_nat j) batch) as [Hlt | Hge].
    + assert (Hjb : (j < (Z.to_nat batch))%nat) by lia.
      unfold bind at 1. unfold bind at 1.
      rewrite (tuple_at (i + j) (Z.of_nat i) (Z.of_nat j) w)
        by (try assumption; lia).
      unfold ret at 1.
      rewrite add_small by (unfold Js.MAX_SAFE in *; lia).
      replace (Z.of_nat j + 1) with (Z.of_nat (S j)) by lia.
      rewrite IH.
      * replace ((Z.to_nat batch) - j)%nat with (S ((Z.to_nat batch) - S j)) by lia.
        cbn [seq map]. rewrite <- app_assoc. cbn [app].
        rewrite bump_bump. rewrite Nat.add_succ_r.
        f_equal. f_equal; lia.
      * lia.
      * lia.
      * unfold bump. cbn [draws]. lia.
      * unfold bump. cbn [ticks]. lia.
    + assert (j = (Z.to_nat batch)) by lia. subst j.
      rewrite Nat.sub_diag, !Nat.mul_0_r, bump_0. cbn [seq map].
      rewrite app_nil_r. reflexivity.
Qed.

Lemma batches_listing (fuel0 n : nat) :
  full total batch n -> ((Z.to_nat batch) <= fuel0)%nat ->
  forall fuel (m : nat) w,
    (m <= n)%nat -> (n - m <= fuel)%nat ->
    draws w = (d0 + a * (m * (Z.to_nat batch)))%nat -> ticks w = (t0 + b * (m * (Z.to_nat batch)))%nat ->
    for_loop fuel (Z.of_nat m * batch) total batch
      (fun i _ =>
         values <- for_loop fuel0 0 batch 1
                     (fun j values => r <- tuple i j ;; ret (values ++ [r]))
                     [] ;;
         pool.query (Insert t values)) tt env w
    = (Ok tt,
       {| db := db_exec_all (listed t h (Z.to_nat batch) m (n - m)) (db w);
          log := log w ++ settled_all (listed t h (Z.to_nat batch) m (n - m));
          draws := a * ((n - m) * (Z.to_nat batch)) + draws w;
          ticks := b * ((n - m) * (Z.to_nat batch)) + ticks w;
          sent := (n - m) + sent w |}).
Proof.
  intros [Hle Hmin] Hf0.
  assert (HB : Z.of_nat (Z.to_nat batch) = batch) by lia.
  induction fuel as [| fuel IH]; intros m w Hm Hf Hd Ht.
  - assert (m = n) by lia. subst m.
    unfold for_loop. replace (Z.of_nat n * batch <? total) with false
      by (symmetry; apply Z.ltb_ge; lia).
    rewrite Nat.sub_diag. cbn [listed seq map settled_all flat_map db_exec_all
      fold_left Nat.mul]. rewrite !Nat.mul_0_r, app_nil_r.
    destruct w; reflexivity.
  - cbn [for_loop].
    destruct (Z.ltb_spec (Z.of_nat m * batch) total) as [Hlt | Hge].
    + assert (Hmn : (m < n)%nat) by nia.
      unfold bind at 1. unfold bind at 1.
      replace (Z.of_nat m * batch) with (Z.of_nat (m * (Z.to_nat batch))) by lia.
      pose proof (values_listing (m * (Z.to_nat batch)) ltac:(lia) fuel0 0%nat [] w
                    ltac:(lia) ltac:(lia)) as Hin.
      change (Z.of_nat 0) with 0 in Hin.
      rewrite Hin by (rewrite Nat.add_0_r; assumption).
      rewrite Nat.add_0_r, Nat.sub_0_r. cbn [app].
      unfold pool.query at 1. rewrite accepts. cbn [negb].
      rewrite add_small by (unfold Js.MAX_SAFE in *; lia).
      replace (Z.of_nat (m * (Z.to_nat batch)) + batch) with (Z.of_nat (S m) * batch) by lia.
      rewrite IH.
      * replace (n - m)%nat with (S (n - S m)) by lia.
        rewrite listed_snoc, db_exec_all_cons.
        cbn [settled_all flat_map settled_ok db log draws ticks sent bump].
        fold (settled_all (listed t h (Z.to_nat batch) (S m) (n - S m))).
        rewrite <- app_assoc. cbn [app].
        f_equal. f_equal; lia.
      * lia.
      * lia.
      * cbn [draws bump]. lia.
      * cbn [ticks bump]. lia.
    + assert (m = n) by nia. subst m.
      rewrite Nat.sub_diag. cbn [listed seq map settled_all flat_map
        db_exec_all fold_left Nat.mul]. rewrite !Nat.mul_0_r, app_nil_r.
      destruct w; reflexivity.
Qed.

End Listing.

Lemma batches_listed (env : Env) (t : table) (tuple : Z -> Z -> M row)
    (a b : nat) (h : nat -> row) (total batch : Z) (fuel : nat) (w : World) :
  0 < batch -> total + batch < Js.MAX_SAFE -> accepts_all env ->
  batch <= Z.of_nat fuel -> total <= Z.of_nat fuel * batch ->
  (forall (k : nat) i j w',
     0 <= i -> 0 <= j -> i + j = Z.of_nat k ->
     Z.of_nat k < total + batch ->
     draws w' = (draws w + a * k)%nat -> ticks w' = (ticks w + b * k)%nat ->
     tuple i j env w' = (Ok (h k), bump a b w')) ->
  exists n,
    full total batch n /\
    batches fuel total batch t tuple env w =
    (Ok tt,
     {| db := db_exec_all (listed t h (Z.to_nat batch) 0 n) (db w);
        log := log w ++ settled_all (listed t h (Z.to_nat batch) 0 n);
        draws := a * (n * Z.to_nat batch) + draws w;
        ticks := b * (n * Z.to_nat batch) + ticks w;
        sent := n + sent w |}).
Proof.
  intros Hb Hs Hacc Hf0 Hf Htuple.
  destruct (full_exists total batch Hb) as [n Hn]. exists n.
  split; [exact Hn |]. unfold batches.
  pose proof (batches_listing env t tuple a b (draws w) (ticks w) h total
                batch Hb Hs Hacc Htuple fuel n Hn ltac:(lia) fuel 0%nat w
                ltac:(lia)) as H.
  rewrite Nat.sub_0_r in H. change (Z.of_nat 0 * batch) with 0 in H.
  apply H.
  - destruct Hn as [_ [-> | Hlt]]; [lia | nia].
  - cbn [Nat.mul]. rewrite Nat.mul_0_r. lia.
  - cbn [Nat.mul]. rewrite Nat.mul_0_r. lia.
Qed.

Lemma listed_rows (t : table) (h : nat -> row) (B n : nat) (d : Db) :
  db_exec_all (listed t h B 0 n) d t = d t ++ map h (seq 0 (n * B)).
Proof.
  rewrite db_exec_all_rows. unfold inserted.
  rewrite of_table_same by apply listed_into.
  rewrite listed_values. reflexivity.
Qed.

Lemma listed_frame (t t' : table) (h : nat -> row) (B n : nat) (d : Db) :
  t' <> t -> db_exec_all (listed t h B 0 n) d t' = d t'.
Proof.
  intros Hne. rewrite db_exec_all_rows. unfold inserted.
  rewrite of_table_other; [apply app_nil_r |].
  eapply Forall_impl; [| apply listed_into].
  intros q Hq. cbv beta in Hq. congruence.
Qed.

Lemma product_tuple_eq (env : Env) (i j : Z) (w : World) :
  product_tuple i j env w =
  (Ok (ProductRow (product_name (Js.add (Js.add i j) 1))
         (price_of_draw (random env (draws w)))),
   bump 1 0 w).
Proof. reflexivity. Qed.

Lemma order_tuple_eq (env : Env) (c : Config) (i j : Z) (w : World) :
  order_tuple c i j env w =
  (match date_of_draw (start_2023 env) (clock env (ticks w))
           (random env (S (draws w))) with
   | Some ms =>
       Ok (OrderRow (id_of_draw (random env (draws w)) (TOTAL_USERS c))
             (SqlTimestamp ms) "completed")
   | None => Threw RangeError
   end,
   bump 2 1 w).
Proof.
  unfold order_tuple, random_id, randomDate, Date_2023, Date_now, Math_random,
    bind, ret, date_of_draw, bump.
  cbn [db log draws ticks sent Nat.add].
  destruct (Js.new_Date _); reflexivity.
Qed.

Lemma orderitem_tuple_eq (env : Env) (c : Config) (i j : Z) (w : World) :
  orderitem_tuple c i j env w =
  (Ok (ItemRow (id_of_draw (random env (draws w)) (TOTAL_ORDERS c))
         (id_of_draw (random env (S (draws w))) (TOTAL_PRODUCTS c))
         (id_of_draw (random env (S (S (draws w)))) 10)
         (price_of_draw (random env (S (S (S (draws w))))))),
   bump 4 0 w).
Proof. reflexivity. Qed.

Lemma user_tuple_eq (env : Env) (i j : Z) (w : World) :
  user_tuple i j env w =
  (Ok (user_row (Js.add (Js.add i j) 1)), bump 0 0 w).
Proof. rewrite bump_0. reflexivity. Qed.

Lemma index_small (i j total batch : Z) (k : nat) :
  0 <= i -> 0 <= j -> i + j = Z.of_nat k -> Z.of_nat k < total + batch ->
  total + batch < Js.MAX_SAFE ->
  Js.add (Js.add i j) 1 = Z.of_nat k + 1.
Proof.
  intros Hi Hj Hk Hlt Hs. rewrite (add_small i j) by lia.
  rewrite add_small by lia. lia.
Qed.

(* ---------- lemmas ---------- *)

Lemma safe_total (c : Config) (t : table) :
  safe c -> total_of c t + BATCH_SIZE c < Js.MAX_SAFE.
Proof. intros [_ H]. apply H. Qed.

Lemma insert_users_listed (env : Env) (c : Config) (fuel : nat) (w : World) :
  safe c -> accepts_all env ->
  BATCH_SIZE c <= Z.of_nat fuel ->
  TOTAL_USERS c <= Z.of_nat fuel * BATCH_SIZE c ->
  exists n,
    (n * Z.to_nat (BATCH_SIZE c))%nat = rows_made c users /\
    insert_users c fuel env w =
    (Ok tt,
     {| db := db_exec_all
                (listed users (fun k => user_row (Z.of_nat k + 1))
                   (Z.to_nat (BATCH_SIZE c)) 0 n) (db w);
        log := log w ++
               settled_all
                 (listed users (fun k => user_row (Z.of_nat k + 1))
                    (Z.to_nat (BATCH_SIZE c)) 0 n);
        draws := draws w; ticks := ticks w; sent := n + sent w |}).
Proof.
  intros Hs Hacc Hf0 Hf.
  destruct (batches_listed env users user_tuple 0 0
              (fun k => user_row (Z.of_nat k + 1))
              (TOTAL_USERS c) (BATCH_SIZE c) fuel w (proj1 Hs)
              (safe_total c users Hs) Hacc Hf0 Hf) as (n & Hn & Heq).
  { intros k i j w' Hi Hj Hk Hlt _ _. rewrite user_tuple_eq.
    rewrite (index_small i j (TOTAL_USERS c) (BATCH_SIZE c) k Hi Hj Hk Hlt
               (safe_total c users Hs)). reflexivity. }
  exists n. split; [exact (full_rows _ _ n (proj1 Hs) Hn) |]. exact Heq.
Qed.

Lemma insert_products_listed (env : Env) (c : Config) (fuel : nat)
    (w : World) :
  safe c -> accepts_all env ->
  BATCH_SIZE c <= Z.of_nat fuel ->
  TOTAL_PRODUCTS c <= Z.of_nat fuel * BATCH_SIZE c ->
  exists n,
    (n * Z.to_nat (BATCH_SIZE c))%nat = rows_made c products /\
    insert_products c fuel env w =
    (Ok tt,
     {| db := db_exec_all
                (listed products (product_row env (draws w))
                   (Z.to_nat (BATCH_SIZE c)) 0 n) (db w);
        log := log w ++
               settled_all
                 (listed products (product_row env (draws w))
                    (Z.to_nat (BATCH_SIZE c)) 0 n);
        draws := (rows_made c products + draws w)%nat;
        ticks := ticks w; sent := n + sent w |}).
Proof.
  intros Hs Hacc Hf0 Hf.
  destruct (batches_listed env products product_tuple 1 0
              (product_row env (draws w))
              (TOTAL_PRODUCTS c) (BATCH_SIZE c) fuel w (proj1 Hs)
              (safe_total c products Hs) Hacc Hf0 Hf) as (n & Hn & Heq).
  { intros k i j w' Hi Hj Hk Hlt Hd _. rewrite product_tuple_eq.
    rewrite (index_small i j (TOTAL_PRODUCTS c) (BATCH_SIZE c) k Hi Hj Hk Hlt
               (safe_total c products Hs)).
    rewrite Hd, Nat.mul_1_l. reflexivity. }
  exists n. pose proof (full_rows _ _ n (proj1 Hs) Hn) as Hr.
  split; [exact Hr |].
  unfold insert_products. rewrite Heq.
  change (total_of c products) with (TOTAL_PRODUCTS c) in Hr.
  unfold rows_made. change (total_of c products) with (TOTAL_PRODUCTS c).
  rewrite <- Hr, Nat.mul_1_l. reflexivity.
Qed.

Lemma order_row_some (env : Env) (c : Config) (d0 t0 k : nat) :
  wf_env env ->
  exists ms,
    date_of_draw (start_2023 env) (clock env (t0 + k))
      (random env (d0 + 2 * k + 1)) = Some ms /\
    start_2023 env <= ms <= clock env (t0 + k) /\
    order_row env c d0 t0 k =
    Some (OrderRow (id_of_draw (random env (d0 + 2 * k)) (TOTAL_USERS c))
            (SqlTimestamp ms) "completed").
Proof.
  intros (Hr & H0 & Hc).
  destruct (randomDate_range (random env (d0 + 2 * k + 1)) (start_2023 env)
              (clock env (t0 + k)) (Hr _)) as (ms & Hms & Hrange).
  - split; [exact H0 | apply Hc].
  - apply Hc.
  - exists ms. split; [exact Hms |]. split; [exact Hrange |].
    unfold order_row. rewrite Hms. reflexivity.
Qed.

Lemma insert_orders_listed (env : Env) (c : Config) (fuel : nat)
    (w : World) :
  safe c -> wf_env env -> accepts_all env ->
  BATCH_SIZE c <= Z.of_nat fuel ->
  TOTAL_ORDERS c <= Z.of_nat fuel * BATCH_SIZE c ->
  exists n h,
    (forall k, order_row env c (draws w) (ticks w) k = Some (h k)) /\
    (n * Z.to_nat (BATCH_SIZE c))%nat = rows_made c orders /\
    insert_orders c fuel env w =
    (Ok tt,
     {| db := db_exec_all
                (listed orders h (Z.to_nat (BATCH_SIZE c)) 0 n) (db w);
        log := log w ++
               settled_all (listed orders h (Z.to_nat (BATCH_SIZE c)) 0 n);
        draws := (2 * rows_made c orders + draws w)%nat;
        ticks := (rows_made c orders + ticks w)%nat;
        sent := n + sent w |}).
Proof.
  intros Hs Hwf Hacc Hf0 Hf.
  set (h := fun k => match order_row env c (draws w) (ticks w) k with
                     | Some r => r
                     | None => user_row 0
                     end).
  assert (Hh : forall k, order_row env c (draws w) (ticks w) k = Some (h k)).
  { intros k. unfold h.
    destruct (order_row_some env c (draws w) (ticks w) k Hwf)
      as (ms & _ & _ & ->). reflexivity. }
  destruct (batches_listed env orders (order_tuple c) 2 1 h
              (TOTAL_ORDERS c) (BATCH_SIZE c) fuel w (proj1 Hs)
              (safe_total c orders Hs) Hacc Hf0 Hf) as (n & Hn & Heq).
  { intros k i j w' Hi Hj Hk Hlt Hd Ht. rewrite order_tuple_eq.
    pose proof (Hh k) as Hk'. unfold order_row in Hk'.
    rewrite Hd, Ht, Nat.mul_1_l.
    replace (S (draws w + 2 * k)) with (draws w + 2 * k + 1)%nat by lia.
    destruct (date_of_draw _ _ _); [| discriminate].
    injection Hk' as <-. reflexivity. }
  exists n, h. split; [exact Hh |].
  pose proof (full_rows _ _ n (proj1 Hs) Hn) as Hr.
  split; [exact Hr |].
  unfold insert_orders. rewrite Heq.
  change (total_of c orders) with (TOTAL_ORDERS c) in Hr.
  unfold rows_made. change (total_of c orders) with (TOTAL_ORDERS c).
  rewrite <- Hr, Nat.mul_1_l. reflexivity.
Qed.

Lemma insert_orderitems_listed (env : Env) (c : Config) (fuel : nat)
    (w : World) :
  safe c -> accepts_all env ->
  BATCH_SIZE c <= Z.of_nat fuel ->
  total_of c orderitems <= Z.of_nat fuel * BATCH_SIZE c ->
  exists n,
    (n * Z.to_nat (BATCH_SIZE c))%nat = rows_made c orderitems /\
    insert_orderitems c fuel env w =
    (Ok tt,
     {| db := db_exec_all
                (listed orderitems (item_row env c (draws w))
                   (Z.to_nat (BATCH_SIZE c)) 0 n) (db w);
        log := log w ++
               settled_all
                 (listed orderitems (item_row env c (draws w))
                    (Z.to_nat (BATCH_SIZE c)) 0 n);
        draws := (4 * rows_made c orderitems + draws w)%nat;
        ticks := ticks w; sent := n + sent w |}).
Proof.
  intros Hs Hacc Hf0 Hf.
  destruct (batches_listed env orderitems (orderitem_tuple c) 4 0
              (item_row env c (draws w))
              (total_of c orderitems) (BATCH_SIZE c) fuel w (proj1 Hs)
              (safe_total c orderitems Hs) Hacc Hf0 Hf) as (n & Hn & Heq).
  { intros k i j w' Hi Hj Hk Hlt Hd _. rewrite orderitem_tuple_eq.
    rewrite Hd. unfold item_row.
    replace (S (draws w + 4 * k)) with (draws w + 4 * k + 1)%nat by lia.
    replace (S (draws w + 4 * k + 1)) with (draws w + 4 * k + 2)%nat by lia.
    replace (S (draws w + 4 * k + 2)) with (draws w + 4 * k + 3)%nat by lia.
    reflexivity. }
  exists n. pose proof (full_rows _ _ n (proj1 Hs) Hn) as Hr.
  split; [exact Hr |].
  unfold insert_orderitems. cbv zeta.
  change (Js.mul (TOTAL_ORDERS c) 3) with (total_of c orderitems).
  rewrite Heq. unfold rows_made. rewrite <- Hr, Nat.mul_0_l. reflexivity.
Qed.

Lemma bind_ok {A B} (m : M A) (f : A -> M B) (env : Env) (w w1 : World)
    (x : A) :
  m env w = (Ok x, w1) -> bind m f env w = f x env w1.
Proof. unfold bind. intros ->. reflexivity. Qed.

Lemma map_some_listing {A} (f : nat -> option A) (h : nat -> A) (l : list nat) :
  (forall k, f k = Some (h k)) -> map Some (map h l) = map f l.
Proof.
  intros H. rewrite map_map. apply map_ext. intros k. symmetry. apply H.
Qed.

(** X6. The products stage, met by no obstacle, appends product [k + 1] for
    [k = 0, 1, ...] up to its total rounded up to whole batches, named
    "Product k+1" and priced from the [k]-th draw the stage makes: one draw
    for each row, none shared, and no clock reading. Each price lies between
    0.00 and 500.00. *)
Theorem products_follow_draws (env : Env) (c : Config) (fuel : nat)
    (w : World) :
  safe c -> accepts_all env ->
  BATCH_SIZE c <= Z.of_nat fuel ->
  TOTAL_PRODUCTS c <= Z.of_nat fuel * BATCH_SIZE c ->
  fst (insert_products c fuel env w) = Ok tt /\
  db (snd (insert_products c fuel env w)) products =
    db w products ++
    map (product_row env (draws w)) (seq 0 (rows_made c products)) /\
  draws (snd (insert_products c fuel env w)) =
    (draws w + rows_made c products)%nat /\
  ticks (snd (insert_products c fuel env w)) = ticks w /\
  ((forall n, Js.unit_interval (random env n)) ->
   forall k, 0 <= price_of_draw (random env k) <= 50000).
Proof.
  intros Hs Hacc Hf0 Hf.
  destruct (insert_products_listed env c fuel w Hs Hacc Hf0 Hf)
    as (n & Hn & ->).
  cbn [fst snd db draws ticks]. split; [reflexivity |].
  split; [rewrite listed_rows, Hn; reflexivity |].
  split; [lia |]. split; [reflexivity |].
  intros Hr k. apply random_price_range, Hr.
Qed.

Lemma products_follow_draws_witness :
  db (snd (insert_products five_by_two 3 quiet_env (fresh empty_db))) products
  = map (product_row quiet_env 0) [0; 1]%nat.
Proof.
  assert (H0 : BATCH_SIZE five_by_two <= Z.of_nat 3) by (cbn; lia).
  assert (H1 : TOTAL_PRODUCTS five_by_two
               <= Z.of_nat 3 * BATCH_SIZE five_by_two) by (cbn; lia).
  exact (proj1 (proj2 (products_follow_draws quiet_env five_by_two 3
                         (fresh empty_db) five_by_two_safe quiet_env_accepts
                         H0 H1))).
Defined.

(** X7. The orders stage, met by no obstacle, appends one row for each index
    [k] up to its total rounded up to whole batches; row [k] takes its user
    id from draw [2k] of the stage and its date from draw [2k + 1] and clock
    reading [k]: two draws and one reading of the clock for each row, none
    shared. *)
Theorem orders_follow_draws (env : Env) (c : Config) (fuel : nat)
    (w : World) :
  safe c -> wf_env env -> accepts_all env ->
  BATCH_SIZE c <= Z.of_nat fuel ->
  TOTAL_ORDERS c <= Z.of_nat fuel * BATCH_SIZE c ->
  fst (insert_orders c fuel env w) = Ok tt /\
  (exists rows,
     db (snd (insert_orders c fuel env w)) orders = db w orders ++ rows /\
     map Some rows =
     map (order_row env c (draws w) (ticks w)) (seq 0 (rows_made c orders))) /\
  draws (snd (insert_orders c fuel env w)) =
    (draws w + 2 * rows_made c orders)%nat /\
  ticks (snd (insert_orders c fuel env w)) =
    (ticks w + rows_made c orders)%nat.
Proof.
  intros Hs Hwf Hacc Hf0 Hf.
  destruct (insert_orders_listed env c fuel w Hs Hwf Hacc Hf0 Hf)
    as (n & h & Hh & Hn & ->).
  cbn [fst snd db draws ticks]. split; [reflexivity |].
  split; [| split; lia].
  exists (map h (seq 0 (rows_made c orders))). split.
  - rewrite listed_rows, Hn. reflexivity.
  - apply map_some_listing. exact Hh.
Qed.

Lemma orders_follow_draws_witness :
  exists rows,
    db (snd (insert_orders five_by_two 3 quiet_env (fresh empty_db))) orders
      = rows /\
    map Some rows = map (order_row quiet_env five_by_two 0 0) [0; 1]%nat.
Proof.
  assert (H0 : BATCH_SIZE five_by_two <= Z.of_nat 3) by (cbn; lia).
  assert (H1 : TOTAL_ORDERS five_by_two
               <= Z.of_nat 3 * BATCH_SIZE five_by_two) by (cbn; lia).
  exact (proj1 (proj2 (orders_follow_draws quiet_env five_by_two 3
                         (fresh empty_db) five_by_two_safe quiet_env_wf
                         quiet_env_accepts H0 H1))).
Defined.

(** X8. The order items stage, met by no obstacle, appends one row for each
    index [k] up to its total rounded up to whole batches; row [k] takes its
    order id, product id, quantity and price from draws [4k], [4k + 1],
    [4k + 2] and [4k + 3] of the stage, in that order: four draws for each
    row, none shared, and no clock reading. *)
Theorem orderitems_follow_draws (env : Env) (c : Config) (fuel : nat)
    (w : World) :
  safe c -> accepts_all env ->
  BATCH_SIZE c <= Z.of_nat fuel ->
  total_of c orderitems <= Z.of_nat fuel * BATCH_SIZE c ->
  fst (insert_orderitems c fuel env w) = Ok tt /\
  db (snd (insert_orderitems c fuel env w)) orderitems =
    db w orderitems ++
    map (item_row env c (draws w)) (seq 0 (rows_made c orderitems)) /\
  draws (snd (insert_orderitems c fuel env w)) =
    (draws w + 4 * rows_made c orderitems)%nat /\
  ticks (snd (insert_orderitems c fuel env w)) = ticks w.
Proof.
  intros Hs Hacc Hf0 Hf.
  destruct (insert_orderitems_listed env c fuel w Hs Hacc Hf0 Hf)
    as (n & Hn & ->).
  cbn [fst snd db draws ticks]. split; [reflexivity |].
  split; [rewrite listed_rows, Hn; reflexivity |].
  split; [lia | reflexivity].
Qed.

Lemma orderitems_follow_draws_witness :
  db (snd (insert_orderitems five_by_two 3 quiet_env (fresh empty_db)))
    orderitems
  = map (item_row quiet_env five_by_two 0) [0; 1; 2; 3; 4; 5]%nat.
Proof.
  assert (H0 : BATCH_SIZE five_by_two <= Z.of_nat 3) by (cbn; lia).
  assert (H1 : total_of five_by_two orderitems
               <= Z.of_nat 3 * BATCH_SIZE five_by_two)
    by (vm_compute; discriminate).
  exact (proj1 (proj2 (orderitems_follow_draws quiet_env five_by_two 3
                         (fresh empty_db) five_by_two_safe quiet_env_accepts
                         H0 H1))).
Defined.

Lemma run_users_listed (env : Env) (c : Config) (fuel : nat) (w : World) :
  safe c -> wf_env env -> accepts_all env -> enough c fuel ->
  db (snd (run c fuel env w)) users =
    db w users ++
    map (fun k => user_row (Z.of_nat k + 1)) (seq 0 (rows_made c users)).
Proof.
  intros Hs Hwf Hacc [Hf0 Hf].
  destruct (insert_users_listed env c fuel w Hs Hacc Hf0 (Hf users))
    as (nu & Hnu & Hu).
  match type of Hu with _ = (_, ?W) => set (w1 := W) in * end.
  destruct (insert_products_listed env c fuel w1 Hs Hacc Hf0 (Hf products))
    as (np & Hnp & Hp).
  match type of Hp with _ = (_, ?W) => set (w2 := W) in * end.
  destruct (insert_orders_listed env c fuel w2 Hs Hwf Hacc Hf0 (Hf orders))
    as (no & h & Hh & Hno & Ho).
  match type of Ho with _ = (_, ?W) => set (w3 := W) in * end.
  destruct (insert_orderitems_listed env c fuel w3 Hs Hacc Hf0
              (Hf orderitems)) as (ni & Hni & Hi).
  match type of Hi with _ = (_, ?W) => set (w4 := W) in * end.
  unfold run.
  rewrite (bind_ok _ _ env w w1 tt Hu), (bind_ok _ _ env w1 w2 tt Hp),
    (bind_ok _ _ env w2 w3 tt Ho), (bind_ok _ _ env w3 w4 tt Hi).
  unfold pool.end_. cbn [snd db].
  subst w4 w3 w2 w1. cbn [db].
  rewrite !(listed_frame _ users) by discriminate.
  rewrite listed_rows, Hnu. reflexivity.
Qed.

(** X9. In a run that meets no obstacle the stages share the draws and the
    clock in stage order: users take none, products draws [0 .. P - 1],
    orders the next [2 O] draws and the clock readings [0 .. O - 1], order
    items the next [4 I] draws, where [P], [O] and [I] are the rows made for
    products, orders and order items. Each table receives the rows these
    draws determine, and the run makes [P + 2 O + 4 I] draws and reads the
    clock [O] times in all. *)
Theorem run_follows_oracle (env : Env) (c : Config) (fuel : nat) (w : World) :
  safe c -> wf_env env -> accepts_all env -> enough c fuel ->
  db (snd (run c fuel env w)) users =
    db w users ++
    map (fun k => user_row (Z.of_nat k + 1)) (seq 0 (rows_made c users)) /\
  db (snd (run c fuel env w)) products =
    db w products ++
    map (product_row env (draws w)) (seq 0 (rows_made c products)) /\
  (exists rows,
     db (snd (run c fuel env w)) orders = db w orders ++ rows /\
     map Some rows =
     map (order_row env c (draws w + rows_made c products) (ticks w))
       (seq 0 (rows_made c orders))) /\
  db (snd (run c fuel env w)) orderitems =
    db w orderitems ++
    map (item_row env c
           (draws w + rows_made c products + 2 * rows_made c orders))
      (seq 0 (rows_made c orderitems)) /\
  draws (snd (run c fuel env w)) =
    (draws w + rows_made c products + 2 * rows_made c orders
     + 4 * rows_made c orderitems)%nat /\
  ticks (snd (run c fuel env w)) = (ticks w + rows_made c orders)%nat.
Proof.
  intros Hs Hwf Hacc [Hf0 Hf].
  destruct (insert_users_listed env c fuel w Hs Hacc Hf0 (Hf users))
    as (nu & Hnu & Hu).
  match type of Hu with _ = (_, ?W) => set (w1 := W) in * end.
  destruct (insert_products_listed env c fuel w1 Hs Hacc Hf0 (Hf products))
    as (np & Hnp & Hp).
  match type of Hp with _ = (_, ?W) => set (w2 := W) in * end.
  destruct (insert_orders_listed env c fuel w2 Hs Hwf Hacc Hf0 (Hf orders))
    as (no & h & Hh & Hno & Ho).
  match type of Ho with _ = (_, ?W) => set (w3 := W) in * end.
  destruct (insert_orderitems_listed env c fuel w3 Hs Hacc Hf0
              (Hf orderitems)) as (ni & Hni & Hi).
  match type of Hi with _ = (_, ?W) => set (w4 := W) in * end.
  unfold run.
  rewrite (bind_ok _ _ env w w1 tt Hu), (bind_ok _ _ env w1 w2 tt Hp),
    (bind_ok _ _ env w2 w3 tt Ho), (bind_ok _ _ env w3 w4 tt Hi).
  unfold pool.end_. cbn [snd db draws ticks].
  subst w4 w3 w2 w1. cbn [db draws ticks] in Hh |- *.
  split; [| split; [| split; [| split; [| split]]]].
  - rewrite !(listed_frame _ users) by discriminate.
    rewrite listed_rows, Hnu. reflexivity.
  - rewrite !(listed_frame _ products) by discriminate.
    rewrite listed_rows, Hnp, (listed_frame _ products) by discriminate.
    reflexivity.
  - exists (map h (seq 0 (rows_made c orders))). split.
    + rewrite (listed_frame _ orders) by discriminate.
      rewrite listed_rows, Hno, !(listed_frame _ orders) by discriminate.
      reflexivity.
    + rewrite (map_some_listing _ h _ Hh).
      replace (rows_made c products + draws w)%nat
        with (draws w + rows_made c products)%nat by lia.
      reflexivity.
  - rewrite listed_rows, Hni, !(listed_frame _ orderitems) by discriminate.
    replace (2 * rows_made c orders + (rows_made c products + draws w))%nat
      with (draws w + rows_made c products + 2 * rows_made c orders)%nat
      by lia.
    reflexivity.
  - lia.
  - lia.
Qed.

Lemma run_follows_oracle_witness :
  draws (snd (run five_by_two 3 quiet_env (fresh empty_db))) = 30%nat /\
  ticks (snd (run five_by_two 3 quiet_env (fresh empty_db))) = 2%nat.
Proof.
  assert (He : enough five_by_two 3).
  { split; [cbn; lia |]. intros t. destruct t; vm_compute; discriminate. }
  exact (proj2 (proj2 (proj2 (proj2
           (run_follows_oracle quiet_env five_by_two 3 (fresh empty_db)
              five_by_two_safe quiet_env_wf quiet_env_accepts He))))).
Defined.

(** ** Dates out of order, invalid dates and empty statements *)

Lemma round53_opp (z : Z) : Js.round53 (- z) = - Js.round53 z.
Proof.
  unfold Js.round53. rewrite Z.sgn_opp, Z.abs_opp. lia.
Qed.

Lemma date_of_draw_between (x t0 t1 : Z) :
  Js.unit_interval x -> 0 <= t0 <= Js.MAX_TIME -> 0 <= t1 <= Js.MAX_TIME ->
  exists t, date_of_draw t0 t1 x = Some t /\
            Z.min t0 t1 <= t <= Z.max t0 t1.
Proof.
  intros Hx H0 H1.
  destruct (Z_le_gt_dec t0 t1) as [Hle | Hgt].
  - destruct (randomDate_range x t0 t1 Hx ltac:(lia) ltac:(lia))
      as (t & Ht & Hr).
    exists t. split; [exact Ht | lia].
  - assert (Hmt : Js.MAX_TIME < 2 ^ 53) by reflexivity.
    pose proof one_pos as Hone.
    unfold date_of_draw, Js.sub.
    rewrite (round53_small (t1 - t0)) by (rewrite Z.abs_neq; lia).
    assert (Hy : - ((t0 - t1) * Js.one) <= Js.mul_int x (t1 - t0) <= 0).
    { assert (Hn : 1 <= t0 - t1 <= 2 ^ 53) by lia.
      pose proof (mul_int_range x (t0 - t1) Hx Hn) as Hm.
      unfold Js.mul_int in *.
      replace (x * (t1 - t0)) with (- (x * (t0 - t1))) by ring.
      rewrite round53_opp. lia. }
    set (y := Js.mul_int x (t1 - t0)) in *.
    assert (Hv : t1 * Js.one <= Js.int_add t0 y <= t0 * Js.one).
    { unfold Js.int_add, Js.of_int. rewrite round53_nonneg by nia.
      apply round53_pos_between; nia. }
    set (v := Js.int_add t0 y) in *.
    exists (v / Js.one). split.
    + unfold Js.new_Date.
      assert (Hv0 : 0 <= v) by nia.
      rewrite Z.abs_eq by assumption.
      destruct (v >? Js.MAX_TIME * Js.one) eqn:Egt.
      * apply Z.gtb_lt in Egt. nia.
      * rewrite Z.quot_div_nonneg by lia. reflexivity.
    + split.
      * apply Z.div_le_lower_bound; lia.
      * assert (v / Js.one < t0 + 1) by (apply Z.div_lt_upper_bound; nia).
        lia.
Qed.

(** X10. [randomDate] reads the clock once and draws once, and touches nothing
    else. With a draw in [[0, 1)] and both the start date and the clock
    reading valid, non-negative times, it returns a valid date between the
    two, whichever is the earlier: a clock that stands before 2023 gives
    dates after the clock reading, up to 1 January 2023. *)
Theorem randomDate_between (env : Env) (w : World) :
  Js.unit_interval (random env (draws w)) ->
  0 <= start_2023 env <= Js.MAX_TIME ->
  0 <= clock env (ticks w) <= Js.MAX_TIME ->
  exists t,
    randomDate env w = (Ok (Some t), bump 1 1 w) /\
    Z.min (start_2023 env) (clock env (ticks w)) <= t /\
    t <= Z.max (start_2023 env) (clock env (ticks w)).
Proof.
  intros Hx H0 H1.
  destruct (date_of_draw_between _ _ _ Hx H0 H1) as (t & Ht & Hr).
  exists t. split; [| exact Hr].
  unfold date_of_draw in Ht.
  unfold randomDate, Date_2023, Date_now, Math_random, bind, ret, bump.
  cbn [draws ticks db log sent Nat.add]. rewrite Ht. reflexivity.
Qed.

Lemma randomDate_between_witness :
  exists t,
    randomDate early_env (fresh empty_db)
      = (Ok (Some t), bump 1 1 (fresh empty_db)) /\
    1600000000000 <= t /\ t <= 1672531200000.
Proof.
  assert (Hx : Js.unit_interval (random early_env (draws (fresh empty_db)))).
  { split; [split |]; vm_compute; congruence. }
  assert (H0 : 0 <= start_2023 early_env <= Js.MAX_TIME)
    by (split; vm_compute; congruence).
  assert (H1 : 0 <= clock early_env (ticks (fresh empty_db)) <= Js.MAX_TIME)
    by (split; vm_compute; congruence).
  exact (randomDate_between early_env (fresh empty_db) Hx H0 H1).
Defined.

Lemma for_loop_step {S} (fuel : nat) (i bound step : Z)
    (body : Z -> S -> M S) (s : S) :
  i < bound ->
  for_loop (Datatypes.S fuel) i bound step body s =
  (s' <- body i s ;; for_loop fuel (Js.add i step) bound step body s').
Proof.
  intros Hlt. cbn [for_loop].
  destruct (Z.ltb_spec i bound); [reflexivity | lia].
Qed.

(** X11. When the date computed for the first order of a batch is invalid,
    [toISOString] throws a [RangeError] and the orders stage ends there: the
    tuple's two draws and one clock reading are spent, nothing is sent and
    the tables are as they were. *)
Theorem invalid_date_stops_orders (env : Env) (c : Config) (fuel : nat)
    (w : World) :
  0 < BATCH_SIZE c -> 0 < TOTAL_ORDERS c ->
  date_of_draw (start_2023 env) (clock env (ticks w))
    (random env (S (draws w))) = None ->
  insert_orders c (S fuel) env w = (Threw RangeError, bump 2 1 w).
Proof.
  intros Hb Ht Hd. unfold insert_orders, batches.
  rewrite for_loop_step by exact Ht.
  rewrite for_loop_step by exact Hb.
  unfold bind. rewrite order_tuple_eq, Hd. reflexivity.
Qed.

Lemma invalid_date_stops_orders_witness :
  insert_orders five_by_two 1 late_env (fresh empty_db)
  = (Threw RangeError, bump 2 1 (fresh empty_db)).
Proof.
  assert (Hb : 0 < BATCH_SIZE five_by_two) by reflexivity.
  assert (Ht : 0 < TOTAL_ORDERS five_by_two) by reflexivity.
  assert (Hd : date_of_draw (start_2023 late_env)
                 (clock late_env (ticks (fresh empty_db)))
                 (random late_env (S (draws (fresh empty_db)))) = None)
    by (vm_compute; reflexivity).
  exact (invalid_date_stops_orders late_env five_by_two 0 (fresh empty_db)
           Hb Ht Hd).
Defined.





(** ** Emails *)

Lemma to_string_inj (a b : Z) : Js.to_string a = Js.to_string b -> a = b.
Proof.
  unfold Js.to_string. intros H. apply DecimalZ.to_int_inj.
  assert (Hn : forall z, Z.to_int z <> Decimal.Pos Decimal.Nil /\
                         Z.to_int z <> Decimal.Neg Decimal.Nil).
  { intros [| p | p]; cbn [Z.to_int]; split; try discriminate;
      intros [= Hp]; exact (DecimalPos.Unsigned.to_uint_nonnil p Hp). }
  pose proof (NilZero.isi (Z.to_int a) (proj1 (Hn a)) (proj2 (Hn a))) as Ha.
  pose proof (NilZero.isi (Z.to_int b) (proj1 (Hn b)) (proj2 (Hn b))) as Hb.
  rewrite H in Ha. congruence.
Qed.

Lemma list_ascii_of_append (s t : string) :
  list_ascii_of_string (s ++ t) =
  (list_ascii_of_string s ++ list_ascii_of_string t)%list.
Proof.
  induction s as [| a s IH]; [reflexivity |].
  cbn [append list_ascii_of_string app]. rewrite IH. reflexivity.
Qed.

Lemma append_inv_tail (s1 s2 t : string) :
  (s1 ++ t)%string = (s2 ++ t)%string -> s1 = s2.
Proof.
  intros H. apply (f_equal list_ascii_of_string) in H.
  rewrite !list_ascii_of_append in H. apply app_inv_tail in H.
  rewrite <- (string_of_list_ascii_of_string s1),
    <- (string_of_list_ascii_of_string s2), H. reflexivity.
Qed.

Lemma user_email_inj (n m : Z) : user_email n = user_email m -> n = m.
Proof.
  unfold user_email. intros H. cbn [append] in H.
  injection H as H. apply append_inv_tail in H.
  apply to_string_inj. exact H.
Qed.

Lemma NoDup_map_inj {A B} (f : A -> B) (l : list A) :
  (forall a b, f a = f b -> a = b) -> NoDup l -> NoDup (map f l).
Proof.
  intros Hf. induction 1 as [| a l Hin Hnd IH]; cbn [map]; constructor.
  - intros Hm. apply in_map_iff in Hm as (b & Hb & Hbl).
    apply Hf in Hb. subst b. exact (Hin Hbl).
  - exact IH.
Qed.

(** X13. Within one users stage no email is written twice: the emails are
    "user1@gmail.com", "user2@gmail.com", ... in order, and different numbers
    print differently. *)
Theorem emails_never_repeat (env : Env) (c : Config) (fuel : nat)
    (w : World) :
  safe c -> accepts_all env ->
  BATCH_SIZE c <= Z.of_nat fuel ->
  TOTAL_USERS c <= Z.of_nat fuel * BATCH_SIZE c ->
  exists emails,
    db (snd (insert_users c fuel env w)) users =
      db w users ++ map (fun e => UserRow e SqlNow) emails /\
    emails = map (fun k => user_email (Z.of_nat k + 1))
               (seq 0 (rows_made c users)) /\
    NoDup emails.
Proof.
  intros Hs Hacc Hf0 Hf.
  destruct (insert_users_listed env c fuel w Hs Hacc Hf0 Hf)
    as (n & Hn & ->).
  cbn [snd db]. eexists. split; [| split; [reflexivity |]].
  - rewrite listed_rows, Hn, map_map. reflexivity.
  - apply NoDup_map_inj; [| apply seq_NoDup].
    intros a b H. apply user_email_inj in H. lia.
Qed.

Lemma emails_never_repeat_witness :
  exists emails,
    db (snd (insert_users five_by_two 3 quiet_env (fresh empty_db))) users =
      map (fun e => UserRow e SqlNow) emails /\
    emails = map (fun k => user_email (Z.of_nat k + 1)) (seq 0 6) /\
    NoDup emails.
Proof.
  assert (H0 : BATCH_SIZE five_by_two <= Z.of_nat 3) by (cbn; lia).
  assert (H1 : TOTAL_USERS five_by_two
               <= Z.of_nat 3 * BATCH_SIZE five_by_two) by (cbn; lia).
  exact (emails_never_repeat quiet_env five_by_two 3 (fresh empty_db)
           five_by_two_safe quiet_env_accepts H0 H1).
Defined.

(** X14. A second complete run writes the same user rows again, after those of
    the first: every email of the first run is then in the table twice. (The
    draws of the two runs may differ; the user rows depend on none.) *)
Theorem second_run_repeats_emails (env1 env2 : Env) (c : Config)
    (fuel : nat) (d : Db) :
  safe c ->
  wf_env env1 -> accepts_all env1 -> wf_env env2 -> accepts_all env2 ->
  enough c fuel ->
  db (snd (run c fuel env2 (fresh (db (snd (run c fuel env1 (fresh d)))))))
    users =
  d users ++
  map (fun k => user_row (Z.of_nat k + 1)) (seq 0 (rows_made c users)) ++
  map (fun k => user_row (Z.of_nat k + 1)) (seq 0 (rows_made c users)).
Proof.
  intros Hs Hw1 Ha1 Hw2 Ha2 He.
  rewrite (run_users_listed env2 c fuel _ Hs Hw2 Ha2 He).
  change (db (fresh (db (snd (run c fuel env1 (fresh d))))) users)
    with (db (snd (run c fuel env1 (fresh d))) users).
  rewrite (run_users_listed env1 c fuel _ Hs Hw1 Ha1 He).
  change (db (fresh d) users) with (d users).
  rewrite <- app_assoc. reflexivity.
Qed.

Lemma second_run_repeats_emails_witness :
  db (snd (run five_by_two 3 quiet_env
             (fresh (db (snd (run five_by_two 3 quiet_env
                                (fresh empty_db)))))))
    users =
  map user_row [1; 2; 3; 4; 5; 6] ++ map user_row [1; 2; 3; 4; 5; 6].
Proof.
  assert (He : enough five_by_two 3).
  { split; [cbn; lia |]. intros t. destruct t; vm_compute; discriminate. }
  exact (second_run_repeats_emails quiet_env quiet_env five_by_two 3
           empty_db five_by_two_safe quiet_env_wf quiet_env_accepts
           quiet_env_wf quiet_env_accepts He).
Defined.

(** ** The order of the stages *)

Lemma run_stages (c : Config) (fuel : nat) :
  run c fuel = stages c fuel all_tables.
Proof. reflexivity. Qed.

Lemma stage_facts (env : Env) (c : Config) (fuel : nat) (t : table)
    (w : World) :
  safe c ->
  exists l,
    log (snd (stage c fuel t env w)) = log w ++ l /\
    (forall q, In (Submitted q) l -> into q = t) /\
    (forall t', t' <> t -> db (snd (stage c fuel t env w)) t' = db w t') /\
    (fst (stage c fuel t env w) = Ok tt ->
     stage_done c t w (snd (stage c fuel t env w))).
Proof.
  intros Hs.
  destruct (stage_spec env c t fuel w Hs)
    as (qs & tail & Hseq & _ & Hlog & Hdb & _ & Hout).
  pose proof (batch_seq_into _ _ _ _ Hseq) as Hall.
  exists (settled_all qs ++ tail). split; [exact Hlog |].
  split; [| split].
  - intros q Hq. apply in_app_or in Hq as [Hq | Hq].
    + apply in_settled_all in Hq as (q' & Hq' & [[= ->] | [=]]).
      rewrite Forall_forall in Hall. apply (Hall q' Hq').
    + destruct (fst (stage c fuel t env w)) as [[] | x | ].
      * destruct Hout as [-> _]. destruct Hq.
      * destruct Hout as [[-> _] | (_ & _ & _ & q' & -> & Hb)];
          [destruct Hq |].
        destruct Hq as [[= ->] | [[=] | []]]. apply Hb.
      * destruct Hout as [-> _]. destruct Hq.
  - intros t' Hne. rewrite Hdb, db_exec_all_rows. unfold inserted.
    rewrite of_table_other; [apply app_nil_r |].
    eapply Forall_impl; [| exact Hall]. cbv beta. intros q [Hq _].
    congruence.
  - intros Hok. rewrite Hok in Hout. destruct Hout as (_ & Hle & Hmin).
    exists (inserted t qs), (length qs). split; [| split].
    + rewrite Hdb. apply db_exec_all_rows.
    + split; [exact Hle |]. destruct Hmin as [H0 | Hlt]; [left; lia | right; exact Hlt].
    + destruct (rows_of_batches t (BATCH_SIZE c) qs Hall) as [-> Hlen].
      exact Hlen.
Qed.

Lemma stages_cons (c : Config) (fuel : nat) (t : table) (ts : list table)
    (env : Env) (w : World) :
  stages c fuel (t :: ts) env w =
  match fst (stage c fuel t env w) with
  | Ok _ => stages c fuel ts env (snd (stage c fuel t env w))
  | Threw x => (Threw x, snd (stage c fuel t env w))
  | OutOfFuel => (OutOfFuel, snd (stage c fuel t env w))
  end.
Proof.
  cbn [stages fold_right]. unfold bind at 1.
  destruct (stage c fuel t env w) as [[[] | x | ] w1]; reflexivity.
Qed.

Lemma stages_order (env : Env) (c : Config) (fuel : nat) :
  safe c ->
  forall ts,
    StronglySorted (fun a b => rank a < rank b) ts ->
    forall w, exists l,
      log (snd (stages c fuel ts env w)) = log w ++ l /\
      (forall t, ~ In t ts -> db (snd (stages c fuel ts env w)) t = db w t) /\
      (forall q, In (Submitted q) l ->
         In (into q) ts /\
         forall t', In t' ts -> rank t' < rank (into q) ->
           stage_done c t' w (snd (stages c fuel ts env w))).
Proof.
  intros Hs. induction ts as [| s ts IH]; intros Hsort w.
  - exists [PoolEnded]. split; [reflexivity |]. split; [reflexivity |].
    intros q [[=] | []].
  - apply StronglySorted_inv in Hsort as [Hsort Hhead].
    rewrite Forall_forall in Hhead.
    rewrite stages_cons.
    destruct (stage_facts env c fuel s w Hs) as (l1 & Hlog1 & Hinto1 & Hfr1 & Hdone1).
    assert (Hlocal : forall q, In (Submitted q) l1 ->
              In (into q) (s :: ts) /\
              forall t', In t' (s :: ts) -> rank t' < rank (into q) ->
                stage_done c t' w (snd (stage c fuel s env w))).
    { intros q Hq. rewrite (Hinto1 q Hq). split; [left; reflexivity |].
      intros t' [<- | Hin] Hr; [lia |]. specialize (Hhead t' Hin). lia. }
    destruct (fst (stage c fuel s env w)) as [[] | x | ] eqn:Er.
    + destruct (IH Hsort (snd (stage c fuel s env w)))
        as (l2 & Hlog2 & Hfr2 & Hord2).
      exists (l1 ++ l2). split; [rewrite Hlog2, Hlog1, app_assoc; reflexivity |].
      split.
      * intros t Hn. rewrite Hfr2 by (intros Hin; apply Hn; right; exact Hin).
        apply Hfr1. intros ->. apply Hn. left. reflexivity.
      * assert (Hs_not : ~ In s ts).
        { intros Hin. specialize (Hhead s Hin). lia. }
        intros q Hq. apply in_app_or in Hq as [Hq | Hq].
        { destruct (Hlocal q Hq) as [Hin Hbefore]. split; [exact Hin |].
          intros t' Ht' Hr. rewrite (Hinto1 q Hq) in Hr.
          destruct Ht' as [<- | Hin']; [lia |].
          specialize (Hhead t' Hin'). lia. }
        destruct (Hord2 q Hq) as [Hin Hbefore].
        split; [right; exact Hin |].
        intros t' [<- | Hin'] Hr.
        { destruct (Hdone1 eq_refl) as (rows & n & Hdb & Hfull & Hlen).
          exists rows, n. split; [| split; assumption].
          rewrite (Hfr2 s Hs_not). exact Hdb. }
        destruct (Hbefore t' Hin' Hr) as (rows & n & Hdb & Hfull & Hlen).
        exists rows, n. split; [| split; assumption].
        rewrite Hdb, Hfr1; [reflexivity |].
        intros ->. exact (Hs_not Hin').
    + exists l1. cbn [snd]. split; [exact Hlog1 |]. split.
      * intros t Hn. apply Hfr1. intros ->. apply Hn. left. reflexivity.
      * exact Hlocal.
    + exists l1. cbn [snd]. split; [exact Hlog1 |]. split.
      * intros t Hn. apply Hfr1. intros ->. apply Hn. left. reflexivity.
      * exact Hlocal.
Qed.

Lemma all_tables_sorted :
  StronglySorted (fun a b => rank a < rank b) all_tables.
Proof.
  unfold all_tables.
  repeat (constructor; [| repeat constructor; reflexivity]). constructor.
Qed.

Lemma run_order (env : Env) (c : Config) (fuel : nat) (d : Db) (q : stmt)
    (t : table) :
  safe c ->
  In (Submitted q) (log (snd (run c fuel env (fresh d)))) ->
  rank t < rank (into q) ->
  stage_done c t (fresh d) (snd (run c fuel env (fresh d))).
Proof.
  intros Hs Hq Hr. rewrite run_stages in *.
  destruct (stages_order env c fuel Hs all_tables all_tables_sorted (fresh d))
    as (l & Hlog & _ & Hord).
  rewrite Hlog in Hq. cbn [log fresh app] in Hq.
  destruct (Hord q Hq) as [_ Hbefore].
  apply Hbefore; [apply in_all_tables | exact Hr].
Qed.

(** X15. The stages depend on one another in order: when a run sends a
    statement for some table, every earlier stage has completed, and each
    earlier table holds, after what it held before, whole batches that cover
    its total. No order is sent before all users and products are in, and no
    order item before all orders. *)
Theorem later_stage_needs_earlier (env : Env) (c : Config) (fuel : nat)
    (d : Db) (q : stmt) (t : table) :
  safe c ->
  In (Submitted q) (log (snd (run c fuel env (fresh d)))) ->
  rank t < rank (into q) ->
  exists rows n,
    db (snd (run c fuel env (fresh d))) t = d t ++ rows /\
    full (total_of c t) (BATCH_SIZE c) n /\
    Z.of_nat (length rows) = Z.of_nat n * BATCH_SIZE c /\
    total_of c t <= Z.of_nat (length rows).
Proof.
  intros Hs Hq Hr.
  destruct (run_order env c fuel d q t Hs Hq Hr)
    as (rows & n & Hdb & Hfull & Hlen).
  exists rows, n. split; [exact Hdb |]. split; [exact Hfull |].
  split; [exact Hlen |]. rewrite Hlen. apply Hfull.
Qed.

Lemma later_stage_needs_earlier_witness :
  exists rows n,
    db (snd (run five_by_two 3 (failing_env 4) (fresh empty_db))) users
      = empty_db users ++ rows /\
    full (total_of five_by_two users) (BATCH_SIZE five_by_two) n /\
    Z.of_nat (length rows) = Z.of_nat n * BATCH_SIZE five_by_two /\
    total_of five_by_two users <= Z.of_nat (length rows).
Proof.
  set (q := nth 4 (submitted (log (snd (run five_by_two 3 (failing_env 4)
                                         (fresh empty_db)))))
              (Insert users [])).
  assert (Hq : In (Submitted q)
                 (log (snd (run five_by_two 3 (failing_env 4)
                              (fresh empty_db)))))
    by (vm_compute; do 8 right; left; reflexivity).
  assert (Hr : rank users < rank (into q)) by (vm_compute; reflexivity).
  exact (later_stage_needs_earlier (failing_env 4) five_by_two 3 empty_db q
           users five_by_two_safe Hq Hr).
Defined.

Lemma submitted_row (env : Env) (c : Config) (fuel : nat) (d : Db)
    (q : stmt) (r : row) :
  safe c ->
  In (Submitted q) (log (snd (run c fuel env (fresh d)))) ->
  In r (values q) ->
  exists i j, tuple_is env c (into q) i j r.
Proof.
  intros Hs Hq Hr.
  destruct (run_submitted env c fuel (fresh d) q Hs Hq) as [[] | [n Hb]].
  destruct Hb as (_ & _ & Hrows).
  apply In_nth_error in Hr as [j Hj].
  exists (Z.of_nat n * BATCH_SIZE c), (Z.of_nat j). apply (Hrows j r Hj).
Qed.







(** ** Quotes in the text of a statement *)

Lemma quotes_append (s t : string) :
  quotes (s ++ t) = (quotes s + quotes t)%nat.
Proof.
  unfold quotes. rewrite list_ascii_of_append, filter_app, length_app.
  reflexivity.
Qed.

Lemma quotes_uint (d : Decimal.uint) :
  quotes (NilEmpty.string_of_uint d) = 0%nat.
Proof. induction d; [reflexivity | exact IHd ..]. Qed.

Lemma quotes_to_string (n : Z) : quotes (Js.to_string n) = 0%nat.
Proof.
  unfold Js.to_string.
  destruct (Z.to_int n) as [d | d]; cbn [NilZero.string_of_int].
  - destruct d; [reflexivity | apply quotes_uint ..].
  - change (String "-" (NilZero.string_of_uint d))
      with ("-" ++ NilZero.string_of_uint d)%string.
    rewrite quotes_append.
    destruct d; [reflexivity | apply quotes_uint ..].
Qed.

Lemma quotes_zeros (k : nat) :
  quotes (string_of_list_ascii (repeat "0"%char k)) = 0%nat.
Proof. induction k as [| k IH]; [reflexivity | exact IH]. Qed.

Lemma quotes_pad (w : nat) (n : Z) : quotes (Sql.pad w n) = 0%nat.
Proof.
  unfold Sql.pad. cbv zeta.
  rewrite quotes_append, quotes_zeros, quotes_to_string. reflexivity.
Qed.

Lemma quotes_toISOString (t : Z) : quotes (Sql.toISOString t) = 0%nat.
Proof.
  unfold Sql.toISOString.
  destruct (Sql.civil_of_days (t / 86400000)) as [[y m] d]. cbv zeta.
  rewrite !quotes_append, !quotes_pad.
  destruct ((0 <=? y) && (y <=? 9999)).
  - rewrite quotes_pad. reflexivity.
  - rewrite quotes_append, quotes_pad. destruct (y <? 0); reflexivity.
Qed.

Lemma quotes_fixed2 (n : Z) : quotes (Sql.fixed2 n) = 0%nat.
Proof.
  unfold Sql.fixed2.
  rewrite !quotes_append, quotes_pad, quotes_to_string. reflexivity.
Qed.

Lemma quotes_user_email (n : Z) : quotes (user_email n) = 0%nat.
Proof.
  unfold user_email. rewrite !quotes_append, quotes_to_string. reflexivity.
Qed.

Lemma quotes_product_name (n : Z) : quotes (product_name n) = 0%nat.
Proof.
  unfold product_name. rewrite quotes_append, quotes_to_string. reflexivity.
Qed.

Lemma quotes_tuple (env : Env) (c : Config) (t : table) (i j : Z) (r : row) :
  tuple_is env c t i j r -> quotes (Sql.tuple r) = template_quotes t.
Proof.
  destruct t; cbn [tuple_is template_quotes].
  - intros ->. unfold Sql.tuple, Sql.time.
    rewrite !quotes_append, quotes_user_email. reflexivity.
  - intros (n & ->). unfold Sql.tuple.
    rewrite !quotes_append, quotes_product_name, quotes_fixed2. reflexivity.
  - intros (n & m & k & ms & _ & ->). unfold Sql.tuple, Sql.time.
    rewrite !quotes_append, quotes_to_string, quotes_toISOString.
    reflexivity.
  - intros (n1 & n2 & n3 & n4 & ->). unfold Sql.tuple.
    rewrite !quotes_append, !quotes_to_string, quotes_fixed2. reflexivity.
Qed.

Lemma quotes_concat (k : nat) (l : list string) :
  Forall (fun s => quotes s = k) l ->
  quotes (String.concat "," l) = (length l * k)%nat.
Proof.
  induction 1 as [| s l Hs Hl IH]; [reflexivity |].
  destruct l as [| s' l'].
  - cbn [String.concat length Nat.mul]. lia.
  - change (String.concat "," (s :: s' :: l'))
      with (s ++ "," ++ String.concat "," (s' :: l'))%string.
    rewrite !quotes_append, IH, Hs. cbn [length Nat.mul].
    change (quotes ",") with 0%nat. lia.
Qed.

(** X18. The text of every statement a run sends is quoted as its template
    writes it: no value the script interpolates (an email, a product name, a
    number, a price, an ISO date) contains a single quote, so each tuple has
    exactly the quotes of the template (two for a user or a product, four
    for an order, none for an order item) and the statement that many for
    each of its tuples. *)
Theorem statement_text_quotes (env : Env) (c : Config) (fuel : nat) (d : Db)
    (q : stmt) :
  safe c ->
  In (Submitted q) (log (snd (run c fuel env (fresh d)))) ->
  (forall r, In r (values q) ->
     quotes (Sql.tuple r) = template_quotes (into q)) /\
  quotes (Sql.text q) = (length (values q) * template_quotes (into q))%nat.
Proof.
  intros Hs Hq.
  assert (Hrows : forall r, In r (values q) ->
            quotes (Sql.tuple r) = template_quotes (into q)).
  { intros r Hr.
    destruct (submitted_row env c fuel d q r Hs Hq Hr) as (i & j & Hrow).
    exact (quotes_tuple env c (into q) i j r Hrow). }
  split; [exact Hrows |].
  unfold Sql.text. rewrite quotes_append.
  rewrite (quotes_concat (template_quotes (into q))).
  - rewrite length_map. destruct (into q); reflexivity.
  - apply Forall_forall. intros s Hin.
    apply in_map_iff in Hin as (r & <- & Hr). apply Hrows, Hr.
Qed.

Lemma statement_text_quotes_witness :
  quotes (Sql.text (Insert users [user_row 1; user_row 2])) = 4%nat.
Proof.
  assert (Hq : In (Submitted (Insert users [user_row 1; user_row 2]))
                 (log (snd (run five_by_two 3 quiet_env (fresh empty_db)))))
    by (vm_compute; left; reflexivity).
  exact (proj2 (statement_text_quotes quiet_env five_by_two 3 empty_db
                  (Insert users [user_row 1; user_row 2]) five_by_two_safe
                  Hq)).
Defined.
